(** * git-lfs: the transfer-adapter registry ([tq/manifest.go]) and the
    attribute installer of package [lfs]

    A shallow embedding of the two Go files and the properties their
    specification states about them.

    Conventions of the embedding:
    - a Go [int] is a [Z] (the code only compares the tuning fields with 1,
      so no wrap-around arithmetic is involved);
    - a Go [map[string]T] is a [gmap string T]. A Manifest is one built by
      [NewManifest], which allocates both tables; the zero Manifest, whose
      maps are nil, is not represented;
    - a Go interface value that may be [nil] is an [option]: [None] is [nil];
    - a Go slice that may be [nil] is an [option (list _)]: [None] is the
      [nil] slice, [Some []] an allocated slice of length 0;
    - a method with a pointer receiver that mutates it takes the Manifest
      and returns the Manifest after the call. *)

From Stdlib Require Import ZArith Bool.
From stdpp Require Import gmap strings list fin_maps.

Open Scope Z_scope.

(** ** Types the package declares outside [manifest.go] *)

(** Modelled from the spec: [Direction], declared with the transfer types
    of the package and not in [manifest.go], is an integer-based enumeration
    of which the registry names the two values [Upload] and [Download].
    [manifest.go] dispatches on it with [switch] statements that have no
    [default] case, so every other value of the underlying integer type is
    kept, as [OtherDirection]. *)
Inductive Direction : Type :=
  | Upload
  | Download
  | OtherDirection (code : Z).

(** Modelled from the spec: the well-known name of the basic adapter
    ([BasicAdapterName], declared next to the basic adapters). *)
Definition BasicAdapterName : string := "basic".

(** Modelled from the spec: the name under which the resumable (tus)
    adapter is bootstrapped ([TusAdapterName], declared next to that
    adapter). *)
Definition TusAdapterName : string := "tus".

Definition defaultMaxRetries : Z := 1.
Definition defaultConcurrentTransfers : Z := 3.

Section Registry.

(** The concrete adapters are opaque to the registry: [AdapterImpl] stands
    for the dynamic values an [Adapter] interface can hold. *)
Variable AdapterImpl : Type.

(** [type Adapter interface { ... }]: a possibly-nil interface value. *)
Abbreviation Adapter := (option AdapterImpl).

(** [type NewAdapterFunc func(name string, dir Direction) Adapter] *)
Abbreviation NewAdapterFunc := (string -> Direction -> Adapter).

Record Manifest : Type := mkManifest {
  MaxRetries : Z;
  ConcurrentTransfers : Z;
  BasicTransfersOnly : bool;
  TusTransfersAllowed : bool;
  downloadAdapterFuncs : gmap string NewAdapterFunc;
  uploadAdapterFuncs : gmap string NewAdapterFunc
}.

Definition NewManifest : Manifest :=
  {| MaxRetries := defaultMaxRetries;
     ConcurrentTransfers := defaultConcurrentTransfers;
     BasicTransfersOnly := false;
     TusTransfersAllowed := false;
     downloadAdapterFuncs := ∅;
     uploadAdapterFuncs := ∅ |}.

(** Field assignments [m.F = v]. *)
Definition set_MaxRetries (v : Z) (m : Manifest) : Manifest :=
  mkManifest v (ConcurrentTransfers m) (BasicTransfersOnly m)
    (TusTransfersAllowed m) (downloadAdapterFuncs m) (uploadAdapterFuncs m).

Definition set_ConcurrentTransfers (v : Z) (m : Manifest) : Manifest :=
  mkManifest (MaxRetries m) v (BasicTransfersOnly m)
    (TusTransfersAllowed m) (downloadAdapterFuncs m) (uploadAdapterFuncs m).

Definition set_downloadAdapterFuncs (t : gmap string NewAdapterFunc)
    (m : Manifest) : Manifest :=
  mkManifest (MaxRetries m) (ConcurrentTransfers m) (BasicTransfersOnly m)
    (TusTransfersAllowed m) t (uploadAdapterFuncs m).

Definition set_uploadAdapterFuncs (t : gmap string NewAdapterFunc)
    (m : Manifest) : Manifest :=
  mkManifest (MaxRetries m) (ConcurrentTransfers m) (BasicTransfersOnly m)
    (TusTransfersAllowed m) (downloadAdapterFuncs m) t.

(** ** Registration and construction *)

Definition RegisterNewAdapterFunc (name : string) (dir : Direction)
    (f : NewAdapterFunc) (m : Manifest) : Manifest :=
  match dir with
  | Upload => set_uploadAdapterFuncs (<[name := f]> (uploadAdapterFuncs m)) m
  | Download =>
      set_downloadAdapterFuncs (<[name := f]> (downloadAdapterFuncs m)) m
  | OtherDirection _ => m
  end.

Definition NewAdapter (m : Manifest) (name : string) (dir : Direction)
    : Adapter :=
  match dir with
  | Upload =>
      match uploadAdapterFuncs m !! name with
      | Some u => u name dir
      | None => None
      end
  | Download =>
      match downloadAdapterFuncs m !! name with
      | Some d => d name dir
      | None => None
      end
  | OtherDirection _ => None
  end.

(** The [tracerx.Printf] diagnostic of the fallback branch writes to the
    trace log only and is left out. *)
Definition NewAdapterOrDefault (m : Manifest) (name : string)
    (dir : Direction) : Adapter :=
  let name := if (String.length name =? 0)%nat then BasicAdapterName
              else name in
  match NewAdapter m name dir with
  | None => NewAdapter m BasicAdapterName dir
  | Some a => Some a
  end.

Definition NewDownloadAdapter (m : Manifest) (name : string) : Adapter :=
  NewAdapterOrDefault m name Download.

Definition NewUploadAdapter (m : Manifest) (name : string) : Adapter :=
  NewAdapterOrDefault m name Upload.

(** ** Initialization *)

(** The factories of the built-in adapters live with those adapters
    ([basic_download.go], [basic_upload.go], [tus_upload.go]); the
    registry only stores them. *)
Variables basicDownloadFactory basicUploadFactory tusFactory
  : NewAdapterFunc.

(** Modelled from the spec: [configureBasicDownloadAdapter] is the
    bootstrap of the basic download adapter; it registers that adapter's
    factory under the basic name for the Download direction. *)
Definition configureBasicDownloadAdapter (m : Manifest) : Manifest :=
  RegisterNewAdapterFunc BasicAdapterName Download basicDownloadFactory m.

(** Modelled from the spec: [configureBasicUploadAdapter] is the bootstrap
    of the basic upload adapter; it registers that adapter's factory under
    the basic name for the Upload direction. *)
Definition configureBasicUploadAdapter (m : Manifest) : Manifest :=
  RegisterNewAdapterFunc BasicAdapterName Upload basicUploadFactory m.

(** Modelled from the spec: [configureTusAdapter] is the bootstrap of the
    resumable adapter; it registers that adapter's factory under its own
    name, for uploads. *)
Definition configureTusAdapter (m : Manifest) : Manifest :=
  RegisterNewAdapterFunc TusAdapterName Upload tusFactory m.

Definition InitAdapters (m : Manifest) : Manifest :=
  let m := if MaxRetries m <? 1 then set_MaxRetries defaultMaxRetries m
           else m in
  let m := if ConcurrentTransfers m <? 1
           then set_ConcurrentTransfers defaultConcurrentTransfers m
           else m in
  let m := configureBasicDownloadAdapter m in
  let m := configureBasicUploadAdapter m in
  if TusTransfersAllowed m then configureTusAdapter m else m.

(** ** Listing *)

(** [for n, _ := range adapters] visits every entry of the map once, in an
    order Go leaves unspecified. A [range_order] is one such order: for
    each table, some arrangement of its entries. *)
Record range_order : Type := mkRange {
  visit : gmap string NewAdapterFunc -> list (string * NewAdapterFunc);
  visit_perm : forall t, visit t ≡ₚ map_to_list t
}.

(** The order in which the map's own enumeration lists the entries. *)
Definition canonical_order : range_order :=
  {| visit := map_to_list; visit_perm := fun t => reflexivity _ |}.

(** The reverse of that order. *)
Definition reverse_order : range_order :=
  {| visit := fun t => reverse (map_to_list t);
     visit_perm := fun t => reverse_Permutation (map_to_list t) |}.

Definition getAdapterNames (rng : range_order) (m : Manifest)
    (adapters : gmap string NewAdapterFunc) : option (list string) :=
  if BasicTransfersOnly m then Some [BasicAdapterName]
  else
    let ret := [] in
    let ret := fold_left (fun ret e => ret ++ [fst e]) (visit rng adapters)
                 ret in
    Some ret.

Definition GetDownloadAdapterNames (rng : range_order) (m : Manifest)
    : option (list string) :=
  getAdapterNames rng m (downloadAdapterFuncs m).

Definition GetUploadAdapterNames (rng : range_order) (m : Manifest)
    : option (list string) :=
  getAdapterNames rng m (uploadAdapterFuncs m).

Definition GetAdapterNames (rng : range_order) (m : Manifest)
    (dir : Direction) : option (list string) :=
  match dir with
  | Upload => GetUploadAdapterNames rng m
  | Download => GetDownloadAdapterNames rng m
  | OtherDirection _ => None
  end.

(** The elements of a slice; the [nil] slice has none. *)
Definition slice_elems {A : Type} (s : option (list A)) : list A :=
  match s with
  | Some l => l
  | None => []
  end.

(** ** Vocabulary of the statements *)

(** The factory table a direction selects; no table for the other
    values. *)
Definition adapterFuncs (m : Manifest) (dir : Direction)
    : gmap string NewAdapterFunc :=
  match dir with
  | Upload => uploadAdapterFuncs m
  | Download => downloadAdapterFuncs m
  | OtherDirection _ => ∅
  end.

(** A slice that holds exactly the keys of a table, each once, in some
    order. *)
Definition lists_keys_of (s : option (list string))
    (t : gmap string NewAdapterFunc) : Prop :=
  exists l, s = Some l /\ NoDup l /\ forall n, n ∈ l <-> is_Some (t !! n).

(** The built-in basic factory [InitAdapters] registers for a
    direction. *)
Definition basicFactory (dir : Direction) : NewAdapterFunc :=
  match dir with
  | Upload => basicUploadFactory
  | Download => basicDownloadFactory
  | OtherDirection _ => fun _ _ => None
  end.

End Registry.

(** The two function and interface types, outside the section. *)
Abbreviation Adapter AdapterImpl := (option AdapterImpl).
Abbreviation NewAdapterFunc AdapterImpl :=
  (string -> Direction -> Adapter AdapterImpl).

Arguments mkManifest {AdapterImpl}.
Arguments MaxRetries {AdapterImpl}.
Arguments ConcurrentTransfers {AdapterImpl}.
Arguments BasicTransfersOnly {AdapterImpl}.
Arguments TusTransfersAllowed {AdapterImpl}.
Arguments downloadAdapterFuncs {AdapterImpl}.
Arguments uploadAdapterFuncs {AdapterImpl}.
Arguments NewManifest {AdapterImpl}.
Arguments set_MaxRetries {AdapterImpl}.
Arguments set_ConcurrentTransfers {AdapterImpl}.
Arguments set_downloadAdapterFuncs {AdapterImpl}.
Arguments set_uploadAdapterFuncs {AdapterImpl}.
Arguments RegisterNewAdapterFunc {AdapterImpl}.
Arguments NewAdapter {AdapterImpl}.
Arguments NewAdapterOrDefault {AdapterImpl}.
Arguments NewDownloadAdapter {AdapterImpl}.
Arguments NewUploadAdapter {AdapterImpl}.
Arguments configureBasicDownloadAdapter {AdapterImpl}.
Arguments configureBasicUploadAdapter {AdapterImpl}.
Arguments configureTusAdapter {AdapterImpl}.
Arguments InitAdapters {AdapterImpl}.
Arguments mkRange {AdapterImpl}.
Arguments visit {AdapterImpl}.
Arguments visit_perm {AdapterImpl}.
Arguments canonical_order {AdapterImpl}.
Arguments reverse_order {AdapterImpl}.
Arguments getAdapterNames {AdapterImpl}.
Arguments GetDownloadAdapterNames {AdapterImpl}.
Arguments GetUploadAdapterNames {AdapterImpl}.
Arguments GetAdapterNames {AdapterImpl}.
Arguments adapterFuncs {AdapterImpl}.
Arguments basicFactory {AdapterImpl}.
Arguments lists_keys_of {AdapterImpl}.

(** A run of registrations, made one after the other. *)
Definition register_all {AdapterImpl : Type}
    (regs : list (string * Direction * NewAdapterFunc AdapterImpl))
    (m : Manifest AdapterImpl) : Manifest AdapterImpl :=
  fold_left (fun m r => RegisterNewAdapterFunc (fst (fst r)) (snd (fst r))
                          (snd r) m) regs m.

(** ** The guard: which calls happen while [m.mu] is held

    [Locking] repeats the methods that take the mutex, this time recording
    the order of their lock, unlock and factory-call events. A [defer]red
    call runs when the surrounding function returns, that is after the
    operand of its [return] statement has been evaluated. *)
Module Locking.

Inductive event : Type :=
  | Lock
  | Unlock
  | Invoke (name : string) (dir : Direction).

(** A computation that leaves a trace of events and returns a value. *)
Definition Traced (A : Type) : Type := (list event * A)%type.

Definition ret {A : Type} (a : A) : Traced A := ([], a).

Definition bind {A B : Type} (c : Traced A) (k : A -> Traced B)
    : Traced B :=
  let '(t1, a) := c in
  let '(t2, b) := k a in
  (t1 ++ t2, b).

Definition trace {A : Type} (c : Traced A) : list event := fst c.
Definition result {A : Type} (c : Traced A) : A := snd c.

(** [defer d] followed by [body]: [body] runs to its [return], then
    [d]. *)
Definition deferring {A : Type} (d : Traced unit) (body : Traced A)
    : Traced A :=
  bind body (fun a => bind d (fun _ => ret a)).

Definition mu_Lock : Traced unit := ([Lock], tt).
Definition mu_Unlock : Traced unit := ([Unlock], tt).

(** Whether the guard is held after a trace, given whether it was held
    before. *)
Fixpoint held_after (held : bool) (t : list event) : bool :=
  match t with
  | [] => held
  | Lock :: t => held_after true t
  | Unlock :: t => held_after false t
  | Invoke _ _ :: t => held_after held t
  end.

(** Whether some factory call of the trace happens while the guard is
    held. *)
Fixpoint invoked_while_held (held : bool) (t : list event) : bool :=
  match t with
  | [] => false
  | Lock :: t => invoked_while_held true t
  | Unlock :: t => invoked_while_held false t
  | Invoke _ _ :: t => held || invoked_while_held held t
  end.

(** The guard is not reentrant: a trace is well locked when it never
    locks a held guard and never unlocks a free one. *)
Fixpoint well_locked (held : bool) (t : list event) : bool :=
  match t with
  | [] => true
  | Lock :: t => negb held && well_locked true t
  | Unlock :: t => held && well_locked false t
  | Invoke _ _ :: t => well_locked held t
  end.

(** How many factory calls a trace holds, and how many times it takes the
    guard. *)
Fixpoint invocations (t : list event) : nat :=
  match t with
  | [] => 0
  | Invoke _ _ :: t => S (invocations t)
  | _ :: t => invocations t
  end.

Fixpoint acquisitions (t : list event) : nat :=
  match t with
  | [] => 0
  | Lock :: t => S (acquisitions t)
  | _ :: t => acquisitions t
  end.

Section Methods.

Context {AdapterImpl : Type}.
Abbreviation Manifest := (Manifest AdapterImpl).
Abbreviation NewAdapterFunc := (NewAdapterFunc AdapterImpl).
Abbreviation Adapter := (Adapter AdapterImpl).

(** The call [f(name, dir)] of a factory. *)
Definition invoke (f : NewAdapterFunc) (name : string) (dir : Direction)
    : Traced Adapter :=
  ([Invoke name dir], f name dir).

Definition NewAdapter (m : Manifest) (name : string) (dir : Direction)
    : Traced Adapter :=
  bind mu_Lock (fun _ =>
  deferring mu_Unlock
    match dir with
    | Upload =>
        match uploadAdapterFuncs m !! name with
        | Some u => invoke u name dir
        | None => ret None
        end
    | Download =>
        match downloadAdapterFuncs m !! name with
        | Some d => invoke d name dir
        | None => ret None
        end
    | OtherDirection _ => ret None
    end).

Definition NewAdapterOrDefault (m : Manifest) (name : string)
    (dir : Direction) : Traced Adapter :=
  let name := if (String.length name =? 0)%nat then BasicAdapterName
              else name in
  bind (NewAdapter m name dir) (fun a =>
  match a with
  | None => NewAdapter m BasicAdapterName dir
  | Some a => ret (Some a)
  end).

Definition RegisterNewAdapterFunc (name : string) (dir : Direction)
    (f : NewAdapterFunc) (m : Manifest) : Traced Manifest :=
  bind mu_Lock (fun _ =>
  deferring mu_Unlock
    match dir with
    | Upload =>
        ret (set_uploadAdapterFuncs
               (<[name := f]> (uploadAdapterFuncs m)) m)
    | Download =>
        ret (set_downloadAdapterFuncs
               (<[name := f]> (downloadAdapterFuncs m)) m)
    | OtherDirection _ => ret m
    end).

Definition getAdapterNames (rng : range_order AdapterImpl) (m : Manifest)
    (adapters : gmap string NewAdapterFunc)
    : Traced (option (list string)) :=
  if BasicTransfersOnly m then ret (Some [BasicAdapterName])
  else
    bind mu_Lock (fun _ =>
    deferring mu_Unlock
      (let ret0 := [] in
       let ret0 :=
         fold_left (fun acc e => acc ++ [fst e]) (visit rng adapters)
           ret0 in
       ret (Some ret0))).

End Methods.

End Locking.

(** ** The attribute installer (package [lfs]) *)
Module Attribute.

Record FilterOptions : Type := mkFilterOptions {
  Force : bool;
  Local : bool;
  Worktree : bool;
  System : bool;
  SkipSmudge : bool
}.

(** The methods of [*git.Configuration] that [set] calls. The type lives
    in the [git] package and runs [git config]; here it is an interface
    over a state [C]: a [Find] reads the value of a key in one scope (the
    empty string when there is none), a [Set] writes one and returns the
    state after the write together with the [error] of the write ([None]
    is [nil]; the first result of a [Set], its output, is discarded by
    [set] and not kept). *)
Class Configuration (C E : Type) : Type := {
  FindLocal : C -> string -> string;
  FindWorktree : C -> string -> string;
  FindSystem : C -> string -> string;
  FindGlobal : C -> string -> string;
  SetLocal : C -> string -> string -> C * option E;
  SetWorktree : C -> string -> string -> C * option E;
  SetSystem : C -> string -> string -> C * option E;
  SetGlobal : C -> string -> string -> C * option E
}.

(** The [error] values [set] can return: the one it makes itself with
    [errors.New] from the message "the %q attribute should be %q but is
    %q" filled with the key, the desired and the current value, and the
    ones a configuration write hands back. *)
Inductive error (E : Type) : Type :=
  | AttributeConflict (key value currentValue : string)
  | WriteError (e : E).
Arguments AttributeConflict {E}.
Arguments WriteError {E}.

(** The loop of [shouldReset] over the upgradeable values. *)
Fixpoint matches_upgradeable (value : string) (upgradeables : list string)
    : bool :=
  match upgradeables with
  | [] => false
  | u :: upgradeables =>
      if String.eqb value u then true
      else matches_upgradeable value upgradeables
  end.

Definition shouldReset (value : string) (upgradeables : list string)
    : bool :=
  if (String.length value =? 0)%nat then true
  else matches_upgradeable value upgradeables.

Section SetAttribute.

Context {C E : Type} `{Configuration C E}.

(** The value of [key] in the scope the options select. *)
Definition find_scoped (opt : FilterOptions) (gitConfig : C)
    (key : string) : string :=
  if Local opt then FindLocal gitConfig key
  else if Worktree opt then FindWorktree gitConfig key
  else if System opt then FindSystem gitConfig key
  else FindGlobal gitConfig key.

(** The write of [key] in the scope the options select. *)
Definition set_scoped (opt : FilterOptions) (gitConfig : C)
    (key value : string) : C * option E :=
  if Local opt then SetLocal gitConfig key value
  else if Worktree opt then SetWorktree gitConfig key value
  else if System opt then SetSystem gitConfig key value
  else SetGlobal gitConfig key value.

Definition set (gitConfig : C) (key value : string)
    (upgradeables : list string) (opt : FilterOptions)
    : C * option (error E) :=
  let currentValue := find_scoped opt gitConfig key in
  if Force opt || shouldReset currentValue upgradeables then
    let '(gitConfig, err) := set_scoped opt gitConfig key value in
    (gitConfig, WriteError <$> err)
  else if negb (String.eqb currentValue value) then
    (gitConfig, Some (AttributeConflict key value currentValue))
  else (gitConfig, None).

End SetAttribute.

(** *** Attributes and their installation *)

(** [Properties] is only ranged over, [Upgradeables] is tested against
    [nil] before it is indexed: it is an [option]. A key that
    [Upgradeables] does not hold indexes to the nil slice, which the loop of
    [shouldReset] takes as the empty list. *)
Record Attribute : Type := mkAttribute {
  AttrSection : string;
  Properties : gmap string string;
  Upgradeables : option (gmap string (list string))
}.

(** [strings.Join(elems, sep)] *)
Fixpoint Join (elems : list string) (sep : string) : string :=
  match elems with
  | [] => ""
  | [a] => a
  | a :: rest => a +:+ sep +:+ Join rest sep
  end.

Definition normalizeKey (a : Attribute) (relative : string) : string :=
  Join [AttrSection a; relative] ".".

(** [a.Upgradeables[k]], behind the test [a.Upgradeables != nil]. *)
Definition upgradeables_of (a : Attribute) (k : string) : list string :=
  match Upgradeables a with
  | Some u => default [] (u !! k)
  | None => []
  end.

(** An order in which [for k, v := range a.Properties] may visit the
    entries. *)
Record properties_order : Type := mkPropertiesOrder {
  visit_properties : gmap string string -> list (string * string);
  visit_properties_perm : forall t, visit_properties t ≡ₚ map_to_list t
}.

Definition listed_order : properties_order :=
  {| visit_properties := map_to_list;
     visit_properties_perm := fun t => reflexivity _ |}.

Definition listed_backwards : properties_order :=
  {| visit_properties := fun t => reverse (map_to_list t);
     visit_properties_perm := fun t => reverse_Permutation (map_to_list t) |}.

(** The methods of [*git.Configuration] that [Uninstall] calls: each
    removes a whole section from one scope and returns the state after the
    removal and its [error]. *)
Class SectionRemoval (C E : Type) : Type := {
  UnsetLocalSection : C -> string -> C * option E;
  UnsetWorktreeSection : C -> string -> C * option E;
  UnsetSystemSection : C -> string -> C * option E;
  UnsetGlobalSection : C -> string -> C * option E
}.

Section InstallAttribute.

Context {C E : Type} `{Configuration C E}.

(** The body of the loop of [Install] over the entries still to visit: the
    first [set] that returns an error ends the loop with that error. *)
Fixpoint Install_loop (a : Attribute) (opt : FilterOptions)
    (entries : list (string * string)) (gitConfig : C)
    : C * option (error E) :=
  match entries with
  | [] => (gitConfig, None)
  | (k, v) :: entries =>
      let upgradeables := upgradeables_of a k in
      let key := normalizeKey a k in
      match set gitConfig key v upgradeables opt with
      | (gitConfig, Some err) => (gitConfig, Some err)
      | (gitConfig, None) => Install_loop a opt entries gitConfig
      end
  end.

Definition Install (rng : properties_order) (a : Attribute) (gitConfig : C)
    (opt : FilterOptions) : C * option (error E) :=
  Install_loop a opt (visit_properties rng (Properties a)) gitConfig.

Context `{SectionRemoval C E}.

(** The removal of a section in the scope the options select. *)
Definition unset_scoped (opt : FilterOptions) (gitConfig : C)
    (section : string) : C * option E :=
  if Local opt then UnsetLocalSection gitConfig section
  else if Worktree opt then UnsetWorktreeSection gitConfig section
  else if System opt then UnsetSystemSection gitConfig section
  else UnsetGlobalSection gitConfig section.

Definition Uninstall (a : Attribute) (gitConfig : C) (opt : FilterOptions)
    : C * option (error E) :=
  let '(gitConfig, err) := unset_scoped opt gitConfig (AttrSection a) in
  (gitConfig, WriteError <$> err).

(** [nixhacks.SelfPath], the path of the running executable, is set once
    when the program starts. *)
Variable SelfPath : string.

Definition filterAttribute : Attribute :=
  {| AttrSection := "filter.lfs";
     Properties :=
       <["clean" := SelfPath +:+ " clean -- %f"]>
       (<["smudge" := SelfPath +:+ " smudge -- %f"]>
       (<["process" := SelfPath +:+ " filter-process"]>
       (<["required" := "true"]> ∅)));
     Upgradeables := Some
       (<["clean" := [SelfPath +:+ " clean %f"]]>
       (<["smudge" := [SelfPath +:+ " smudge %f";
                       SelfPath +:+ " smudge --skip %f";
                       SelfPath +:+ " smudge --skip -- %f"]]>
       (<["process" := [SelfPath +:+ " filter";
                        SelfPath +:+ " filter --skip";
                        SelfPath +:+ " filter-process --skip"]]> ∅))) |}.



Definition FilterOptions_Uninstall (o : FilterOptions) (gitConfig : C)
    : C * option (error E) :=
  Uninstall filterAttribute gitConfig o.

End InstallAttribute.

(** *** What is expected of a configuration

    [set] and [Install] read a key back after writing it and rely on a
    write changing one key only. Within the scope the options select: a
    write that succeeded is read back, and a write leaves every other key as
    it reads. *)
Class ConfigurationLaws (C E : Type) `{Configuration C E} : Prop := {
  find_set_same : forall opt (c : C) key value,
    snd (set_scoped opt c key value) = None ->
    find_scoped opt (fst (set_scoped opt c key value)) key = value;
  find_set_other : forall opt (c : C) key value other,
    other <> key ->
    find_scoped opt (fst (set_scoped opt c key value)) other
    = find_scoped opt c other
}.

(** After the removal of a section that succeeded, the keys of that
    section read as unset. *)
Class RemovalLaws (C E : Type) `{Configuration C E} `{SectionRemoval C E}
    : Prop := {
  find_unset : forall opt (c : C) section relative,
    snd (unset_scoped opt c section) = None ->
    find_scoped opt (fst (unset_scoped opt c section))
      (Join [section; relative] ".") = ""
}.

(** A property conflicts in a configuration when a [set] of it without
    force ends in the conflict error: its key holds a value that is neither
    empty, nor the desired one, nor upgradeable. *)
Definition conflicts {C E : Type} `{Configuration C E} (a : Attribute)
    (opt : FilterOptions) (gitConfig : C) (k v : string) : Prop :=
  let currentValue := find_scoped opt gitConfig (normalizeKey a k) in
  currentValue <> "" /\ currentValue <> v
  /\ currentValue ∉ upgradeables_of a k.

(** *** A configuration to run [set] on

    Four scopes, each a map from keys to values, as the four files
    [git config] edits; [writable] tells whether those files can be
    written (a system-wide file usually cannot by an ordinary user). An
    unset key reads as the empty string and a write to a read-only
    configuration fails and changes nothing. *)
Record files : Type := mkFiles {
  localFile : gmap string string;
  worktreeFile : gmap string string;
  systemFile : gmap string string;
  globalFile : gmap string string;
  writable : bool
}.

Inductive scope : Type := LocalScope | WorktreeScope | SystemScope
                        | GlobalScope.

Definition file_of (s : scope) (c : files) : gmap string string :=
  match s with
  | LocalScope => localFile c
  | WorktreeScope => worktreeFile c
  | SystemScope => systemFile c
  | GlobalScope => globalFile c
  end.

Definition files_find (s : scope) (c : files) (key : string) : string :=
  default "" (file_of s c !! key).

Definition files_set (s : scope) (c : files) (key value : string)
    : files * option string :=
  if writable c then
    (match s with
     | LocalScope =>
         mkFiles (<[key := value]> (localFile c)) (worktreeFile c)
           (systemFile c) (globalFile c) true
     | WorktreeScope =>
         mkFiles (localFile c) (<[key := value]> (worktreeFile c))
           (systemFile c) (globalFile c) true
     | SystemScope =>
         mkFiles (localFile c) (worktreeFile c)
           (<[key := value]> (systemFile c)) (globalFile c) true
     | GlobalScope =>
         mkFiles (localFile c) (worktreeFile c) (systemFile c)
           (<[key := value]> (globalFile c)) true
     end, None)
  else (c, Some "could not lock config file").

#[global] Instance files_configuration : Configuration files string := {
  FindLocal := files_find LocalScope;
  FindWorktree := files_find WorktreeScope;
  FindSystem := files_find SystemScope;
  FindGlobal := files_find GlobalScope;
  SetLocal := files_set LocalScope;
  SetWorktree := files_set WorktreeScope;
  SetSystem := files_set SystemScope;
  SetGlobal := files_set GlobalScope
}.

(** Whether a key lies in a section. *)
Definition in_section (section key : string) : bool :=
  String.prefix (section +:+ ".") key.

Definition without_section (section : string) (t : gmap string string)
    : gmap string string :=
  filter (fun kv => in_section section (fst kv) = false) t.

(** The removal of a section from one file: it fails when the files cannot
    be written and when the file holds no key of the section. *)
Definition files_unset (s : scope) (c : files) (section : string)
    : files * option string :=
  if writable c then
    if bool_decide (without_section section (file_of s c) = file_of s c)
    then (c, Some "no such section")
    else
      (match s with
       | LocalScope =>
           mkFiles (without_section section (localFile c)) (worktreeFile c)
             (systemFile c) (globalFile c) true
       | WorktreeScope =>
           mkFiles (localFile c) (without_section section (worktreeFile c))
             (systemFile c) (globalFile c) true
       | SystemScope =>
           mkFiles (localFile c) (worktreeFile c)
             (without_section section (systemFile c)) (globalFile c) true
       | GlobalScope =>
           mkFiles (localFile c) (worktreeFile c) (systemFile c)
             (without_section section (globalFile c)) true
       end, None)
  else (c, Some "could not lock config file").

#[global] Instance files_removal : SectionRemoval files string := {
  UnsetLocalSection := files_unset LocalScope;
  UnsetWorktreeSection := files_unset WorktreeScope;
  UnsetSystemSection := files_unset SystemScope;
  UnsetGlobalSection := files_unset GlobalScope
}.

(** The scope the options select. *)
Definition scope_of (opt : FilterOptions) : scope :=
  if Local opt then LocalScope
  else if Worktree opt then WorktreeScope
  else if System opt then SystemScope
  else GlobalScope.

Definition no_files (w : bool) : files := mkFiles ∅ ∅ ∅ ∅ w.

Definition global_only (t : gmap string string) (w : bool) : files :=
  mkFiles ∅ ∅ ∅ t w.

Definition default_options : FilterOptions :=
  mkFilterOptions false false false false false.

Definition forced_options : FilterOptions :=
  mkFilterOptions true false false false false.

End Attribute.

(** ** Concrete manifests the statements are run on

    Adapters are told apart by a tag: the adapter a factory builds is the
    string naming that factory. *)
Module Samples.

Definition tagged (tag : string) : NewAdapterFunc string :=
  fun _ _ => Some tag.

(** A factory that yields the [nil] adapter. *)
Definition nil_factory : NewAdapterFunc string := fun _ _ => None.

Definition init (m : Manifest string) : Manifest string :=
  InitAdapters (tagged "basic-download") (tagged "basic-upload")
    (tagged "tus-upload") m.

(** [NewManifest] with both tuning fields set to 0 by the caller. *)
Definition zeroed : Manifest string :=
  set_ConcurrentTransfers 0 (set_MaxRetries 0 NewManifest).

(** A fresh Manifest with one factory, ["X"], for uploads only. *)
Definition upload_only : Manifest string :=
  RegisterNewAdapterFunc "X" Upload (tagged "custom-X") NewManifest.

(** A fresh Manifest whose only upload factory yields [nil]. *)
Definition nil_upload : Manifest string :=
  RegisterNewAdapterFunc "X" Upload nil_factory NewManifest.

(** Three custom download factories and the basic-only policy. *)
Definition basic_only : Manifest string :=
  let m := RegisterNewAdapterFunc "a" Download (tagged "a")
             (RegisterNewAdapterFunc "b" Download (tagged "b")
                (RegisterNewAdapterFunc "c" Download (tagged "c")
                   NewManifest)) in
  mkManifest (MaxRetries m) (ConcurrentTransfers m) true
    (TusTransfersAllowed m) (downloadAdapterFuncs m) (uploadAdapterFuncs m).

End Samples.

(** ** Concrete configurations the installer is run on *)
Module InstallerSamples.

Definition selfPath : string := "git-lfs".

(** Writable files in which nothing is set. *)
Definition fresh : Attribute.files := Attribute.no_files true.



(** Files in which the smudge filter is somebody else's. *)
Definition foreign_smudge : Attribute.files :=
  Attribute.global_only {["filter.lfs.smudge" := "cat"]} true.

End InstallerSamples.

(** * Properties of the registry *)

Section RegistryFacts.

Context {AdapterImpl : Type}.
Implicit Types (m : Manifest AdapterImpl) (f : NewAdapterFunc AdapterImpl).
Implicit Types (name : string) (dir : Direction).

(** ** Lookups *)

Lemma NewAdapter_lookup m name dir :
  NewAdapter m name dir =
  match adapterFuncs m dir !! name with
  | Some f => f name dir
  | None => None
  end.
Proof. destruct dir; simpl; try reflexivity. Qed.

Lemma NewAdapterOrDefault_empty_name m dir :
  NewAdapterOrDefault m "" dir = NewAdapterOrDefault m BasicAdapterName dir.
Proof. reflexivity. Qed.

(** With the basic factory in the table and yielding an adapter, the
    fallback construction yields one whatever the name. *)
Lemma NewAdapterOrDefault_basic m name dir f :
  adapterFuncs m dir !! BasicAdapterName = Some f ->
  f BasicAdapterName dir <> None ->
  NewAdapterOrDefault m name dir <> None.
Proof.
  intros Hb Hf. unfold NewAdapterOrDefault.
  destruct (NewAdapter m _ dir) as [a|] eqn:Ha; [discriminate|].
  rewrite NewAdapter_lookup, Hb. exact Hf.
Qed.

Lemma NewAdapterOrDefault_unregistered m name dir f :
  adapterFuncs m dir !! BasicAdapterName = Some f ->
  adapterFuncs m dir !! name = None ->
  NewAdapterOrDefault m name dir = f BasicAdapterName dir.
Proof.
  intros Hb Hn. unfold NewAdapterOrDefault.
  destruct (String.length name =? 0)%nat eqn:Hlen.
  - rewrite NewAdapter_lookup, Hb. destruct (f _ _); reflexivity.
  - rewrite !NewAdapter_lookup, Hn, Hb. reflexivity.
Qed.

(** ** Registration *)

Lemma Register_upload name f m :
  uploadAdapterFuncs (RegisterNewAdapterFunc name Upload f m)
  = <[name := f]> (uploadAdapterFuncs m)
  /\ downloadAdapterFuncs (RegisterNewAdapterFunc name Upload f m)
     = downloadAdapterFuncs m.
Proof. split; reflexivity. Qed.

Lemma Register_download name f m :
  downloadAdapterFuncs (RegisterNewAdapterFunc name Download f m)
  = <[name := f]> (downloadAdapterFuncs m)
  /\ uploadAdapterFuncs (RegisterNewAdapterFunc name Download f m)
     = uploadAdapterFuncs m.
Proof. split; reflexivity. Qed.

Lemma Register_tuning name dir f m :
  MaxRetries (RegisterNewAdapterFunc name dir f m) = MaxRetries m
  /\ ConcurrentTransfers (RegisterNewAdapterFunc name dir f m)
     = ConcurrentTransfers m
  /\ BasicTransfersOnly (RegisterNewAdapterFunc name dir f m)
     = BasicTransfersOnly m
  /\ TusTransfersAllowed (RegisterNewAdapterFunc name dir f m)
     = TusTransfersAllowed m.
Proof. destruct dir; repeat split; reflexivity. Qed.

(** ** Initialization *)

Section Init.

Variables bd bu tus : NewAdapterFunc AdapterImpl.

Lemma InitAdapters_MaxRetries m :
  MaxRetries (InitAdapters bd bu tus m)
  = if MaxRetries m <? 1 then defaultMaxRetries else MaxRetries m.
Proof.
  destruct m as [mr ct bo ta d u]. unfold InitAdapters.
  cbn [MaxRetries ConcurrentTransfers].
  destruct (mr <? 1); cbn [set_MaxRetries ConcurrentTransfers];
    destruct (ct <? 1), ta; reflexivity.
Qed.

Lemma InitAdapters_ConcurrentTransfers m :
  ConcurrentTransfers (InitAdapters bd bu tus m)
  = if ConcurrentTransfers m <? 1 then defaultConcurrentTransfers
    else ConcurrentTransfers m.
Proof.
  destruct m as [mr ct bo ta d u]. unfold InitAdapters.
  cbn [MaxRetries ConcurrentTransfers].
  destruct (mr <? 1); cbn [set_MaxRetries ConcurrentTransfers];
    destruct (ct <? 1), ta; reflexivity.
Qed.

Lemma InitAdapters_basic m dir :
  dir = Upload \/ dir = Download ->
  adapterFuncs (InitAdapters bd bu tus m) dir !! BasicAdapterName
  = Some (basicFactory bd bu dir).
Proof.
  intros Hdir. destruct m as [mr ct bo ta d u]. unfold InitAdapters.
  cbn [MaxRetries ConcurrentTransfers].
  destruct (mr <? 1); cbn [set_MaxRetries ConcurrentTransfers];
    destruct (ct <? 1), ta; destruct Hdir as [-> | ->]; cbn;
    rewrite ?(lookup_insert_ne _ TusAdapterName) by discriminate;
    apply lookup_insert_eq.
Qed.

End Init.

End RegistryFacts.

(** * The guard *)

Section LockingFacts.

Context {AdapterImpl : Type}.
Implicit Types (m : Manifest AdapterImpl) (name : string) (dir : Direction).

(** The traced method computes what the plain one does. *)
Lemma Locking_NewAdapter_result m name dir :
  Locking.result (Locking.NewAdapter m name dir) = NewAdapter m name dir.
Proof.
  unfold Locking.NewAdapter, NewAdapter.
  destruct dir; simpl; try reflexivity.
  - destruct (uploadAdapterFuncs m !! name); reflexivity.
  - destruct (downloadAdapterFuncs m !! name); reflexivity.
Qed.

Lemma Locking_NewAdapter_trace m name dir :
  Locking.trace (Locking.NewAdapter m name dir) =
  match adapterFuncs m dir !! name with
  | Some _ => [Locking.Lock; Locking.Invoke name dir; Locking.Unlock]
  | None => [Locking.Lock; Locking.Unlock]
  end.
Proof.
  unfold Locking.NewAdapter.
  destruct dir; simpl; try reflexivity.
  - destruct (uploadAdapterFuncs m !! name); reflexivity.
  - destruct (downloadAdapterFuncs m !! name); reflexivity.
Qed.

Lemma Locking_bind_result {A B : Type} (c : Locking.Traced A)
    (k : A -> Locking.Traced B) :
  Locking.result (Locking.bind c k) = Locking.result (k (Locking.result c)).
Proof.
  destruct c as [t a]. unfold Locking.bind, Locking.result. simpl.
  destruct (k a); reflexivity.
Qed.

Lemma Locking_NewAdapterOrDefault_result m name dir :
  Locking.result (Locking.NewAdapterOrDefault m name dir)
  = NewAdapterOrDefault m name dir.
Proof.
  unfold Locking.NewAdapterOrDefault, NewAdapterOrDefault.
  rewrite Locking_bind_result, Locking_NewAdapter_result.
  destruct (NewAdapter m _ dir); [reflexivity|].
  apply Locking_NewAdapter_result.
Qed.

Lemma Locking_Register_result name dir f m :
  Locking.result (Locking.RegisterNewAdapterFunc name dir f m)
  = RegisterNewAdapterFunc name dir f m.
Proof. destruct dir; reflexivity. Qed.

Lemma Locking_getAdapterNames_result rng m t :
  Locking.result (Locking.getAdapterNames rng m t) = getAdapterNames rng m t.
Proof.
  unfold Locking.getAdapterNames, getAdapterNames.
  destruct (BasicTransfersOnly m); reflexivity.
Qed.

(** C7 (as amended). [NewAdapter] takes the guard on entry and gives it
    back through a deferred unlock, which runs after the operand of
    [return] has been evaluated: when the name is in the table of the
    direction, the events are lock, call of the factory, unlock, in that
    order, so the factory is called while the guard is held; when it is
    not, no factory is called. Either way the guard is free again when
    [NewAdapter] returns, it was never taken twice, and the value returned
    is that of the plain [NewAdapter]. *)
Theorem NewAdapter_guard_trace m name dir :
  let t := Locking.trace (Locking.NewAdapter m name dir) in
  Locking.result (Locking.NewAdapter m name dir) = NewAdapter m name dir
  /\ t = match adapterFuncs m dir !! name with
         | Some _ => [Locking.Lock; Locking.Invoke name dir; Locking.Unlock]
         | None => [Locking.Lock; Locking.Unlock]
         end
  /\ Locking.invoked_while_held false t
     = match adapterFuncs m dir !! name with
       | Some _ => true
       | None => false
       end
  /\ Locking.held_after false t = false
  /\ Locking.well_locked false t = true.
Proof.
  intros t. subst t. split; [apply Locking_NewAdapter_result|].
  rewrite Locking_NewAdapter_trace.
  destruct (adapterFuncs m dir !! name); repeat split; reflexivity.
Qed.

End LockingFacts.

(** C7, as the specification words it, fails: with a factory registered
    under ["X"] for uploads, [NewAdapter("X", Upload)] calls that factory
    between taking the guard and releasing it. *)
Lemma NewAdapter_guard_counterexample :
  Locking.trace (Locking.NewAdapter Samples.upload_only "X" Upload)
  = [Locking.Lock; Locking.Invoke "X" Upload; Locking.Unlock]
  /\ Locking.invoked_while_held false
       (Locking.trace (Locking.NewAdapter Samples.upload_only "X" Upload))
     = true.
Proof. split; vm_compute; reflexivity. Qed.

(** * Listing *)

Section ListingFacts.

Context {AdapterImpl : Type}.
Implicit Types (m : Manifest AdapterImpl) (name : string) (dir : Direction).
Implicit Types (t : gmap string (NewAdapterFunc AdapterImpl)).
Implicit Types (rng : range_order AdapterImpl).

(** The loop appends the visited keys, in the order of the visit. *)
Lemma append_names (entries : list (string * NewAdapterFunc AdapterImpl))
    (acc : list string) :
  fold_left (fun ret e => ret ++ [fst e]) entries acc
  = acc ++ map fst entries.
Proof.
  revert acc. induction entries as [|e entries IH]; intros acc; simpl.
  - symmetry. apply app_nil_r.
  - rewrite IH, <- app_assoc. reflexivity.
Qed.

Lemma getAdapterNames_basic_only rng m t :
  BasicTransfersOnly m = true ->
  getAdapterNames rng m t = Some [BasicAdapterName].
Proof. intros Hb. unfold getAdapterNames. rewrite Hb. reflexivity. Qed.

Lemma getAdapterNames_keys rng m t :
  BasicTransfersOnly m = false ->
  lists_keys_of (getAdapterNames rng m t) t.
Proof.
  intros Hb. unfold getAdapterNames. rewrite Hb.
  exists (map fst (visit rng t)). rewrite append_names. simpl.
  pose proof (visit_perm rng t) as Hperm.
  assert (Hkeys : map fst (visit rng t) ≡ₚ (map_to_list t).*1)
    by (apply fmap_Permutation; exact Hperm).
  split; [reflexivity|]. split.
  - rewrite Hkeys. apply NoDup_fst_map_to_list.
  - intros n. rewrite Hkeys. rewrite list_elem_of_fmap. split.
    + intros [[k f] [-> Hin]]. apply elem_of_map_to_list in Hin.
      simpl. eauto.
    + intros [f Hf]. exists (n, f). split; [reflexivity|].
      apply elem_of_map_to_list. exact Hf.
Qed.

(** C5. With [BasicTransfersOnly] set, both listings are the one-element
    slice holding the basic adapter's name, whatever the tables hold and
    whatever the iteration order; with the flag clear, each listing holds
    exactly the keys of its direction's table, each once, in the order of
    the iteration. *)
Theorem adapter_names_listing rng m :
  (BasicTransfersOnly m = true ->
     GetDownloadAdapterNames rng m = Some [BasicAdapterName]
     /\ GetUploadAdapterNames rng m = Some [BasicAdapterName])
  /\ (BasicTransfersOnly m = false ->
        lists_keys_of (GetDownloadAdapterNames rng m)
          (downloadAdapterFuncs m)
        /\ lists_keys_of (GetUploadAdapterNames rng m)
             (uploadAdapterFuncs m)).
Proof.
  unfold GetDownloadAdapterNames, GetUploadAdapterNames. split; intros Hb.
  - split; apply getAdapterNames_basic_only; exact Hb.
  - split; apply getAdapterNames_keys; exact Hb.
Qed.

End ListingFacts.

(** C5 at two Manifests: one with three custom download factories and the
    basic-only policy, one with a single upload factory and the policy
    off. *)
Lemma adapter_names_listing_witness :
  (GetDownloadAdapterNames reverse_order Samples.basic_only
   = Some [BasicAdapterName]
   /\ GetUploadAdapterNames reverse_order Samples.basic_only
      = Some [BasicAdapterName])
  /\ (lists_keys_of (GetDownloadAdapterNames canonical_order
                       Samples.upload_only)
        (downloadAdapterFuncs Samples.upload_only)
      /\ lists_keys_of (GetUploadAdapterNames canonical_order
                          Samples.upload_only)
           (uploadAdapterFuncs Samples.upload_only)).
Proof.
  split.
  - apply (proj1 (adapter_names_listing reverse_order Samples.basic_only)).
    reflexivity.
  - apply (proj2 (adapter_names_listing canonical_order Samples.upload_only)).
    reflexivity.
Defined.

(** * Initialization, registration and construction *)

Section RegistryClaims.

Context {AdapterImpl : Type}.
Implicit Types (m : Manifest AdapterImpl) (f : NewAdapterFunc AdapterImpl).
Implicit Types (name : string) (dir : Direction).
Variables bd bu tus : NewAdapterFunc AdapterImpl.

(** C1. Once [InitAdapters] has run, with built-in basic factories that
    yield an adapter for their own direction, the basic name is in the
    table of both directions, and for every name and either direction
    [NewAdapterOrDefault] returns a non-nil adapter. An empty name is
    replaced by the basic name before the lookup, so the built-in basic
    factory builds the result, and so it does for a name that is not in
    the table. *)
Theorem NewAdapterOrDefault_after_InitAdapters m name dir :
  bd BasicAdapterName Download <> None ->
  bu BasicAdapterName Upload <> None ->
  dir = Upload \/ dir = Download ->
  let m' := InitAdapters bd bu tus m in
  adapterFuncs m' dir !! BasicAdapterName = Some (basicFactory bd bu dir)
  /\ NewAdapterOrDefault m' name dir <> None
  /\ NewAdapterOrDefault m' "" dir
     = NewAdapterOrDefault m' BasicAdapterName dir
  /\ NewAdapterOrDefault m' "" dir
     = basicFactory bd bu dir BasicAdapterName dir
  /\ (adapterFuncs m' dir !! name = None ->
      NewAdapterOrDefault m' name dir
      = basicFactory bd bu dir BasicAdapterName dir).
Proof.
  intros Hd Hu Hdir m'.
  pose proof (InitAdapters_basic bd bu tus m dir Hdir) as Hb.
  fold m' in Hb.
  assert (Hf : basicFactory bd bu dir BasicAdapterName dir <> None)
    by (destruct Hdir as [-> | ->]; assumption).
  split; [exact Hb|].
  split; [exact (NewAdapterOrDefault_basic m' name dir _ Hb Hf)|].
  split; [reflexivity|]. split.
  - unfold NewAdapterOrDefault. simpl.
    rewrite NewAdapter_lookup, Hb.
    destruct (basicFactory bd bu dir BasicAdapterName dir); reflexivity.
  - intros Hn. exact (NewAdapterOrDefault_unregistered m' name dir _ Hb Hn).
Qed.

(** C2. [InitAdapters] on a Manifest whose [MaxRetries] and
    [ConcurrentTransfers] are both 0 leaves them at 1 and 3, the two
    defaults. *)
Theorem InitAdapters_zero_defaults m :
  MaxRetries m = 0 ->
  ConcurrentTransfers m = 0 ->
  MaxRetries (InitAdapters bd bu tus m) = 1
  /\ ConcurrentTransfers (InitAdapters bd bu tus m) = 3
  /\ MaxRetries (InitAdapters bd bu tus m) = defaultMaxRetries
  /\ ConcurrentTransfers (InitAdapters bd bu tus m)
     = defaultConcurrentTransfers.
Proof.
  intros Hr Hc.
  rewrite InitAdapters_MaxRetries, InitAdapters_ConcurrentTransfers.
  rewrite Hr, Hc. repeat split; reflexivity.
Qed.

(** C3 (as amended). [InitAdapters] resets a tuning field that is below 1
    to its default: [ConcurrentTransfers <= 0] becomes 3 and
    [MaxRetries <= 0] becomes 1; a field that is at least 1 is kept. Both
    fields are at least 1 afterwards. *)
Theorem InitAdapters_resets_to_defaults m :
  (ConcurrentTransfers m <= 0 ->
     ConcurrentTransfers (InitAdapters bd bu tus m) = 3)
  /\ (MaxRetries m <= 0 -> MaxRetries (InitAdapters bd bu tus m) = 1)
  /\ (1 <= ConcurrentTransfers m ->
        ConcurrentTransfers (InitAdapters bd bu tus m)
        = ConcurrentTransfers m)
  /\ (1 <= MaxRetries m ->
        MaxRetries (InitAdapters bd bu tus m) = MaxRetries m)
  /\ 1 <= ConcurrentTransfers (InitAdapters bd bu tus m)
  /\ 1 <= MaxRetries (InitAdapters bd bu tus m).
Proof.
  rewrite InitAdapters_MaxRetries, InitAdapters_ConcurrentTransfers.
  unfold defaultMaxRetries, defaultConcurrentTransfers.
  destruct (Z.ltb_spec (MaxRetries m) 1),
           (Z.ltb_spec (ConcurrentTransfers m) 1);
    repeat split; intros; lia.
Qed.

(** C4 (as amended). [NewAdapter] returns nil when the name is not in the
    table of the direction and otherwise returns what the registered
    factory returns for that name and direction; so its result is nil
    exactly when the name is absent or the factory itself yields nil. The
    two tables are separate: a name registered for uploads only gives nil
    for downloads and the factory's result for uploads. *)
Theorem NewAdapter_nil_characterisation m name dir :
  NewAdapter m name dir
  = match adapterFuncs m dir !! name with
    | Some f => f name dir
    | None => None
    end
  /\ (NewAdapter m name dir = None <->
      adapterFuncs m dir !! name = None
      \/ exists f, adapterFuncs m dir !! name = Some f
                   /\ f name dir = None)
  /\ (forall f, uploadAdapterFuncs m !! name = Some f ->
        downloadAdapterFuncs m !! name = None ->
        NewAdapter m name Download = None
        /\ NewAdapter m name Upload = f name Upload).
Proof.
  split; [apply NewAdapter_lookup|]. split.
  - rewrite NewAdapter_lookup.
    destruct (adapterFuncs m dir !! name) as [g|] eqn:Hg.
    + split.
      * intros Hnil. right. exists g. split; [reflexivity | exact Hnil].
      * intros [Habs | [f [Hf Hnil]]]; [discriminate|].
        injection Hf as ->. exact Hnil.
    + split; [intros _; left; reflexivity | reflexivity].
  - intros f Hu Hd. simpl. rewrite Hu, Hd. split; reflexivity.
Qed.

(** C6. Registering under [Upload] (under [Download]) puts the factory in
    the upload (download) table at the given name, in place of whatever
    was there, changes no other entry of that table, leaves the other
    table and the tuning fields as they were, and [NewAdapter] for that
    name and direction then returns what the new factory builds. *)
Theorem RegisterNewAdapterFunc_frame name f m :
  let mu := RegisterNewAdapterFunc name Upload f m in
  let md := RegisterNewAdapterFunc name Download f m in
  (uploadAdapterFuncs mu = <[name := f]> (uploadAdapterFuncs m)
   /\ uploadAdapterFuncs mu !! name = Some f
   /\ (forall other, other <> name ->
         uploadAdapterFuncs mu !! other = uploadAdapterFuncs m !! other)
   /\ downloadAdapterFuncs mu = downloadAdapterFuncs m
   /\ NewAdapter mu name Upload = f name Upload)
  /\ (downloadAdapterFuncs md = <[name := f]> (downloadAdapterFuncs m)
      /\ downloadAdapterFuncs md !! name = Some f
      /\ (forall other, other <> name ->
            downloadAdapterFuncs md !! other
            = downloadAdapterFuncs m !! other)
      /\ uploadAdapterFuncs md = uploadAdapterFuncs m
      /\ NewAdapter md name Download = f name Download)
  /\ (MaxRetries mu = MaxRetries m /\ MaxRetries md = MaxRetries m
      /\ ConcurrentTransfers mu = ConcurrentTransfers m
      /\ ConcurrentTransfers md = ConcurrentTransfers m
      /\ BasicTransfersOnly mu = BasicTransfersOnly m
      /\ BasicTransfersOnly md = BasicTransfersOnly m
      /\ TusTransfersAllowed mu = TusTransfersAllowed m
      /\ TusTransfersAllowed md = TusTransfersAllowed m).
Proof.
  intros mu md. subst mu md. split; [|split].
  - split; [reflexivity|]. split; [apply lookup_insert_eq|].
    split; [intros other Hne; apply lookup_insert_ne; congruence|].
    split; [reflexivity|].
    simpl. rewrite lookup_insert_eq. reflexivity.
  - split; [reflexivity|]. split; [apply lookup_insert_eq|].
    split; [intros other Hne; apply lookup_insert_ne; congruence|].
    split; [reflexivity|].
    simpl. rewrite lookup_insert_eq. reflexivity.
  - repeat split; reflexivity.
Qed.

(** C9. On the Manifest [NewManifest] returns, before any
    initialization, [NewAdapter] and [NewAdapterOrDefault] return nil for
    every name and every direction: the guard is taken and released and
    no factory is called; [BasicTransfersOnly] is false and
    [GetAdapterNames] returns a slice without elements. The operations
    are total and none has an error among its results. *)
Theorem NewManifest_lookups_nil (rng : range_order AdapterImpl) name dir :
  NewAdapter (@NewManifest AdapterImpl) name dir = None
  /\ NewAdapterOrDefault (@NewManifest AdapterImpl) name dir = None
  /\ Locking.NewAdapter (@NewManifest AdapterImpl) name dir
     = ([Locking.Lock; Locking.Unlock], None)
  /\ Locking.NewAdapterOrDefault (@NewManifest AdapterImpl) name dir
     = ([Locking.Lock; Locking.Unlock; Locking.Lock; Locking.Unlock], None)
  /\ BasicTransfersOnly (@NewManifest AdapterImpl) = false
  /\ slice_elems (GetAdapterNames rng NewManifest dir) = []
  /\ GetAdapterNames rng NewManifest Upload = Some []
  /\ GetAdapterNames rng NewManifest Download = Some [].
Proof.
  assert (Hnew : forall n d, NewAdapter (@NewManifest AdapterImpl) n d = None).
  { intros n d. rewrite NewAdapter_lookup.
    destruct d; simpl; rewrite ?lookup_empty; reflexivity. }
  assert (Hlock : forall n d,
             Locking.NewAdapter (@NewManifest AdapterImpl) n d
             = ([Locking.Lock; Locking.Unlock], None)).
  { intros n d. unfold Locking.NewAdapter.
    destruct d; simpl; rewrite ?lookup_empty; reflexivity. }
  assert (Hvisit : visit rng (∅ : gmap string (NewAdapterFunc AdapterImpl))
                   = []).
  { apply Permutation_nil_r. rewrite (visit_perm rng ∅).
    rewrite map_to_list_empty. reflexivity. }
  split; [apply Hnew|].
  split; [unfold NewAdapterOrDefault; rewrite !Hnew; reflexivity|].
  split; [apply Hlock|].
  split; [unfold Locking.NewAdapterOrDefault; rewrite !Hlock; reflexivity|].
  split; [reflexivity|].
  assert (Hnames : forall d, d = Upload \/ d = Download ->
            GetAdapterNames rng (@NewManifest AdapterImpl) d = Some []).
  { intros d [-> | ->]; simpl;
      unfold GetUploadAdapterNames, GetDownloadAdapterNames,
        getAdapterNames; simpl; rewrite Hvisit; reflexivity. }
  split; [|split; apply Hnames; auto].
  destruct dir; [rewrite Hnames by auto; reflexivity ..|reflexivity].
Qed.

(** C10. For a direction that is neither [Upload] nor [Download],
    [RegisterNewAdapterFunc] returns without changing the Manifest,
    [NewAdapter] (and with it [NewAdapterOrDefault]) returns nil whatever
    the tables hold, and [GetAdapterNames] returns the nil slice whatever
    [BasicTransfersOnly] says. *)
Theorem unknown_direction_inert (rng : range_order AdapterImpl) code name
    f m :
  RegisterNewAdapterFunc name (OtherDirection code) f m = m
  /\ NewAdapter m name (OtherDirection code) = None
  /\ NewAdapterOrDefault m name (OtherDirection code) = None
  /\ GetAdapterNames rng m (OtherDirection code) = None
  /\ Locking.trace (Locking.NewAdapter m name (OtherDirection code))
     = [Locking.Lock; Locking.Unlock].
Proof. repeat split; reflexivity. Qed.

End RegistryClaims.

(** ** The statements at concrete Manifests *)

(** C1 at an initialized Manifest in which ["X"] is registered for uploads
    with a factory that yields nil: the request for ["X"] falls back to the
    basic upload adapter, and a request for a name nobody registered gets
    the basic download adapter. *)
Lemma NewAdapterOrDefault_after_InitAdapters_witness :
  NewAdapterOrDefault (Samples.init Samples.nil_upload) "X" Upload <> None
  /\ NewAdapterOrDefault (Samples.init Samples.nil_upload)
       "nonexistent-xyz" Download
     = Some "basic-download".
Proof.
  split.
  - apply (NewAdapterOrDefault_after_InitAdapters
             (Samples.tagged "basic-download") (Samples.tagged "basic-upload")
             (Samples.tagged "tus-upload") Samples.nil_upload "X" Upload);
      [discriminate | discriminate | left; reflexivity].
  - apply (NewAdapterOrDefault_after_InitAdapters
             (Samples.tagged "basic-download") (Samples.tagged "basic-upload")
             (Samples.tagged "tus-upload") Samples.nil_upload
             "nonexistent-xyz" Download);
      [discriminate | discriminate | right; reflexivity | reflexivity].
Defined.

(** C2 at [NewManifest] with both fields set to 0. *)
Lemma InitAdapters_zero_defaults_witness :
  MaxRetries (Samples.init Samples.zeroed) = 1
  /\ ConcurrentTransfers (Samples.init Samples.zeroed) = 3.
Proof.
  pose proof (InitAdapters_zero_defaults
                (Samples.tagged "basic-download")
                (Samples.tagged "basic-upload")
                (Samples.tagged "tus-upload") Samples.zeroed
                eq_refl eq_refl) as [Hr [Hc _]].
  split; [exact Hr | exact Hc].
Defined.

(** C3, as the specification words it, fails: a Manifest with
    [ConcurrentTransfers = 0] has 3 in that field after [InitAdapters],
    not 1. *)
Lemma InitAdapters_clamp_counterexample :
  ConcurrentTransfers Samples.zeroed <= 0
  /\ ConcurrentTransfers (Samples.init Samples.zeroed) = 3
  /\ ConcurrentTransfers (Samples.init Samples.zeroed) <> 1.
Proof. split; [|split]; vm_compute; congruence. Qed.

(** C3 (as amended) at the same Manifest. *)
Lemma InitAdapters_resets_to_defaults_witness :
  ConcurrentTransfers (Samples.init Samples.zeroed) = 3
  /\ MaxRetries (Samples.init Samples.zeroed) = 1.
Proof.
  pose proof (InitAdapters_resets_to_defaults
                (Samples.tagged "basic-download")
                (Samples.tagged "basic-upload")
                (Samples.tagged "tus-upload") Samples.zeroed)
    as [Hc [Hr _]].
  split; [apply Hc | apply Hr]; vm_compute; congruence.
Defined.

(** C4, as the specification words it, fails: ["X"] is in the upload table
    of this Manifest, and [NewAdapter("X", Upload)] is nil all the same,
    because the factory registered there returns nil. *)
Lemma NewAdapter_nil_counterexample :
  uploadAdapterFuncs Samples.nil_upload !! "X" = Some Samples.nil_factory
  /\ NewAdapter Samples.nil_upload "X" Upload = None
  /\ ~ (NewAdapter Samples.nil_upload "X" Upload = None <->
        uploadAdapterFuncs Samples.nil_upload !! "X" = None).
Proof.
  assert (Hx : uploadAdapterFuncs Samples.nil_upload !! "X"
               = Some Samples.nil_factory) by apply lookup_insert_eq.
  assert (Hn : NewAdapter Samples.nil_upload "X" Upload = None)
    by (simpl; rewrite lookup_insert_eq; reflexivity).
  split; [exact Hx|]. split; [exact Hn|].
  intros [Habs _]. specialize (Habs Hn). rewrite Hx in Habs. discriminate.
Qed.

(** C4 (as amended) at a Manifest with ["X"] registered for uploads
    only. *)
Lemma NewAdapter_nil_characterisation_witness :
  NewAdapter Samples.upload_only "X" Download = None
  /\ NewAdapter Samples.upload_only "X" Upload = Some "custom-X".
Proof.
  apply (proj2 (proj2 (NewAdapter_nil_characterisation
                         Samples.upload_only "X" Upload))
           (Samples.tagged "custom-X")).
  - apply lookup_insert_eq.
  - apply lookup_empty.
Defined.

(** C6 at the shadowing of the built-in basic download factory (P3 of the
    specification): the new factory is used and the other entries stay. *)
Lemma RegisterNewAdapterFunc_frame_witness :
  let m := Samples.init NewManifest in
  let m' := RegisterNewAdapterFunc BasicAdapterName Download
              (Samples.tagged "shadow") m in
  NewAdapter m' BasicAdapterName Download = Some "shadow"
  /\ NewAdapter m' BasicAdapterName Upload = Some "basic-upload"
  /\ downloadAdapterFuncs m' !! TusAdapterName
     = downloadAdapterFuncs m !! TusAdapterName.
Proof.
  intros m m'.
  pose proof (RegisterNewAdapterFunc_frame BasicAdapterName
                (Samples.tagged "shadow") m)
    as [_ [[_ [_ [Hother [Hup Hnew]]]] _]].
  split; [exact Hnew|]. split.
  - vm_compute. reflexivity.
  - apply Hother. discriminate.
Defined.

(** * The attribute installer *)

Section AttributeFacts.

Import Attribute.

Lemma matches_upgradeable_elem (value : string)
    (upgradeables : list string) :
  matches_upgradeable value upgradeables = true <-> value ∈ upgradeables.
Proof.
  induction upgradeables as [|u us IH]; simpl.
  - split; [discriminate | intros Hin; inversion Hin].
  - destruct (String.eqb_spec value u) as [-> | Hne].
    + split; [intros _; left | reflexivity].
    + rewrite IH. split.
      * intros Hin. right. exact Hin.
      * intros Hin. inversion Hin; subst; [congruence | assumption].
Qed.

Lemma shouldReset_spec (value : string) (upgradeables : list string) :
  shouldReset value upgradeables = true <->
  value = "" \/ value ∈ upgradeables.
Proof.
  unfold shouldReset. destruct value as [|a value]; simpl.
  - split; [intros _; left; reflexivity | reflexivity].
  - rewrite matches_upgradeable_elem. split.
    + intros Hin. right. exact Hin.
    + intros [Hnil | Hin]; [discriminate | exact Hin].
Qed.

Lemma shouldReset_false (value : string) (upgradeables : list string) :
  shouldReset value upgradeables = false <->
  value <> "" /\ value ∉ upgradeables.
Proof.
  pose proof (shouldReset_spec value upgradeables) as Hs.
  destruct (shouldReset value upgradeables).
  - split; [discriminate|]. intros [Hne Hnot].
    destruct (proj1 Hs eq_refl); contradiction.
  - split; [|reflexivity]. intros _. split; intros Habs.
    + assert (false = true) by (apply Hs; left; exact Habs). discriminate.
    + assert (false = true) by (apply Hs; right; exact Habs). discriminate.
Qed.

Context {C E : Type} `{Configuration C E}.

(** C8 (as amended). [set] returns the conflict error, which names the
    key, the desired and the current value, exactly when force is off and
    the current value of the key in the selected scope is non-empty,
    differs from the desired value and is none of the upgradeable values;
    the configuration is then left as it was. When force is off and the
    current value is non-empty, not upgradeable and already the desired
    one, [set] succeeds without writing. In the remaining cases (force is
    on, the current value is empty, or it is upgradeable) [set] writes the
    desired value in the selected scope and returns what that write
    returns: nil when the write succeeds, the error of the write when it
    does not. *)
Theorem set_outcome (gitConfig : C) (key value : string)
    (upgradeables : list string) (opt : FilterOptions) :
  let currentValue := find_scoped opt gitConfig key in
  let conflict :=
    Force opt = false /\ currentValue <> "" /\ currentValue <> value
    /\ currentValue ∉ upgradeables in
  ((exists k v c, snd (set gitConfig key value upgradeables opt)
                  = Some (AttributeConflict k v c)) <-> conflict)
  /\ (conflict ->
        set gitConfig key value upgradeables opt
        = (gitConfig, Some (AttributeConflict key value currentValue)))
  /\ (Force opt = false -> currentValue <> "" ->
      currentValue ∉ upgradeables -> currentValue = value ->
        set gitConfig key value upgradeables opt = (gitConfig, None))
  /\ (Force opt = true \/ currentValue = ""
      \/ currentValue ∈ upgradeables ->
        set gitConfig key value upgradeables opt
        = (fst (set_scoped opt gitConfig key value),
           WriteError <$> snd (set_scoped opt gitConfig key value)))
  /\ (Force opt = true \/ currentValue = ""
      \/ currentValue ∈ upgradeables ->
      snd (set_scoped opt gitConfig key value) = None ->
        snd (set gitConfig key value upgradeables opt) = None).
Proof.
  intros currentValue conflict. subst conflict. unfold set.
  fold currentValue.
  destruct (Force opt) eqn:Hforce; simpl.
  - (* force *)
    destruct (set_scoped opt gitConfig key value) as [c' err] eqn:Hw.
    simpl. split; [|split; [|split; [|split]]].
    + split.
      * intros [k [v [c Hc]]]. destruct err; discriminate.
      * intros [Hf _]. discriminate.
    + intros [Hf _]. discriminate.
    + intros Hf. discriminate.
    + reflexivity.
    + intros _ ->. reflexivity.
  - destruct (shouldReset currentValue upgradeables) eqn:Hreset.
    + (* empty or upgradeable *)
      apply shouldReset_spec in Hreset.
      destruct (set_scoped opt gitConfig key value) as [c' err] eqn:Hw.
      simpl. split; [|split; [|split; [|split]]].
      * split.
        -- intros [k [v [c Hc]]]. destruct err; discriminate.
        -- intros [_ [Hne [_ Hnot]]]. destruct Hreset; contradiction.
      * intros [_ [Hne [_ Hnot]]]. destruct Hreset; contradiction.
      * intros _ Hne Hnot. destruct Hreset; contradiction.
      * reflexivity.
      * intros _ ->. reflexivity.
    + apply shouldReset_false in Hreset. destruct Hreset as [Hne Hnot].
      destruct (String.eqb_spec currentValue value) as [Heq | Hdiff];
        simpl; (split; [|split; [|split; [|split]]]).
      * split.
        -- intros [k [v [c Hc]]]. discriminate.
        -- intros [_ [_ [Hd _]]]. contradiction.
      * intros [_ [_ [Hd _]]]. contradiction.
      * reflexivity.
      * intros [Hf | [He | Hin]]; [discriminate | contradiction ..].
      * intros [Hf | [He | Hin]]; [discriminate | contradiction ..].
      * split; [intros _; auto | intros _; eauto].
      * reflexivity.
      * intros _ _ _ Heq. contradiction.
      * intros [Hf | [He | Hin]]; [discriminate | contradiction ..].
      * intros [Hf | [He | Hin]]; [discriminate | contradiction ..].
Qed.

End AttributeFacts.

(** On configuration files that can be written, a [set] that does not end
    in the conflict error leaves the desired value in the selected
    scope. *)
Lemma files_set_reads_back (c : Attribute.files) (key value : string)
    (upgradeables : list string) (opt : Attribute.FilterOptions) :
  Attribute.writable c = true ->
  snd (Attribute.set c key value upgradeables opt) = None ->
  Attribute.find_scoped opt
    (fst (Attribute.set c key value upgradeables opt)) key = value.
Proof.
  intros Hw. unfold Attribute.set.
  destruct (Attribute.Force opt
            || Attribute.shouldReset (Attribute.find_scoped opt c key)
                 upgradeables).
  - intros _. unfold Attribute.set_scoped, Attribute.find_scoped. simpl.
    unfold Attribute.files_set, Attribute.files_find. rewrite Hw.
    destruct (Attribute.Local opt), (Attribute.Worktree opt),
      (Attribute.System opt); simpl; rewrite lookup_insert_eq; reflexivity.
  - destruct (String.eqb_spec (Attribute.find_scoped opt c key) value)
      as [Heq | Hne]; simpl; [intros _; exact Heq | discriminate].
Qed.

(** C8, as the specification words it, fails: with force on, none of the
    conditions of the conflict error holds, and yet [set] does not succeed
    when the configuration cannot be written; it returns the error of the
    write, which is not the conflict error. That is so even when the current
    value is already the desired one: with force on, [set] writes again. *)
Lemma set_write_error_counterexample :
  Attribute.Force Attribute.forced_options = true
  /\ Attribute.set (Attribute.no_files false) "filter.lfs.clean"
       "git-lfs clean -- %f" [] Attribute.forced_options
     = (Attribute.no_files false,
        Some (Attribute.WriteError "could not lock config file"))
  /\ snd (Attribute.set (Attribute.no_files false) "filter.lfs.clean"
            "git-lfs clean -- %f" [] Attribute.forced_options) <> None
  /\ Attribute.find_scoped Attribute.forced_options
       (Attribute.global_only
          {["filter.lfs.clean" := "git-lfs clean -- %f"]} false)
       "filter.lfs.clean" = "git-lfs clean -- %f"
  /\ snd (Attribute.set
            (Attribute.global_only
               {["filter.lfs.clean" := "git-lfs clean -- %f"]} false)
            "filter.lfs.clean" "git-lfs clean -- %f" []
            Attribute.forced_options)
     = Some (Attribute.WriteError "could not lock config file").
Proof. repeat split; vm_compute; congruence. Qed.

(** C8 (as amended) at a global configuration that holds another value for
    the key: the conflict error without force, the write with an
    upgradeable current value. *)
Lemma set_outcome_witness :
  Attribute.set (Attribute.global_only {["filter.lfs.clean" := "old"]} true)
    "filter.lfs.clean" "git-lfs clean -- %f" [] Attribute.default_options
  = (Attribute.global_only {["filter.lfs.clean" := "old"]} true,
     Some (Attribute.AttributeConflict "filter.lfs.clean"
             "git-lfs clean -- %f" "old"))
  /\ snd (Attribute.set
            (Attribute.global_only {["filter.lfs.clean" := "old"]} true)
            "filter.lfs.clean" "git-lfs clean -- %f" ["old"]
            Attribute.default_options) = None.
Proof.
  split.
  - etransitivity.
    + apply (proj1 (proj2 (set_outcome
               (Attribute.global_only {["filter.lfs.clean" := "old"]} true)
               "filter.lfs.clean" "git-lfs clean -- %f" []
               Attribute.default_options))).
      split; [reflexivity|]. split; [vm_compute; congruence|].
      split; [vm_compute; congruence|]. apply not_elem_of_nil.
    + vm_compute. reflexivity.
  - apply (proj2 (proj2 (proj2 (proj2 (set_outcome
             (Attribute.global_only {["filter.lfs.clean" := "old"]} true)
             "filter.lfs.clean" "git-lfs clean -- %f" ["old"]
             Attribute.default_options))))).
    + right. right. vm_compute. left.
    + reflexivity.
Defined.

(** * Further properties of the registry *)

Section RegistryMore.

Context {AdapterImpl : Type}.
Implicit Types (m : Manifest AdapterImpl) (f g : NewAdapterFunc AdapterImpl).
Implicit Types (name : string) (dir : Direction).
Implicit Types (rng : range_order AdapterImpl).

(** Two Manifests with the same fields are the same. *)
Lemma Manifest_eq m1 m2 :
  MaxRetries m1 = MaxRetries m2 ->
  ConcurrentTransfers m1 = ConcurrentTransfers m2 ->
  BasicTransfersOnly m1 = BasicTransfersOnly m2 ->
  TusTransfersAllowed m1 = TusTransfersAllowed m2 ->
  downloadAdapterFuncs m1 = downloadAdapterFuncs m2 ->
  uploadAdapterFuncs m1 = uploadAdapterFuncs m2 ->
  m1 = m2.
Proof.
  destruct m1, m2; simpl; intros; subst; reflexivity.
Qed.

(** X1. The last registration under a name and direction is the one that
    counts: a registration wipes out an earlier one under the same name and
    direction. *)
Theorem Register_last_wins name dir f g m :
  RegisterNewAdapterFunc name dir g (RegisterNewAdapterFunc name dir f m)
  = RegisterNewAdapterFunc name dir g m.
Proof.
  destruct dir; [| |reflexivity];
    apply Manifest_eq; simpl; try reflexivity; apply insert_insert_eq.
Qed.

(** X2. Registrations that differ in the name or in the direction do not
    interfere: they can be made in either order. *)
Theorem Register_commute name name' dir dir' f g m :
  name <> name' \/ dir <> dir' ->
  RegisterNewAdapterFunc name dir f
    (RegisterNewAdapterFunc name' dir' g m)
  = RegisterNewAdapterFunc name' dir' g
      (RegisterNewAdapterFunc name dir f m).
Proof.
  intros Hdiff.
  destruct dir, dir'; try reflexivity;
    apply Manifest_eq; simpl; try reflexivity;
    apply insert_insert_ne; destruct Hdiff as [Hn | Hd]; congruence.
Qed.

(** X3. A factory registered under the empty name is never used by
    [NewAdapterOrDefault]: whatever name is asked for, the result is what it
    was before that registration. *)
Theorem empty_name_registration_unused dir' f m name dir :
  NewAdapterOrDefault (RegisterNewAdapterFunc "" dir' f m) name dir
  = NewAdapterOrDefault m name dir.
Proof.
  assert (Hother : forall n, n <> "" ->
            NewAdapter (RegisterNewAdapterFunc "" dir' f m) n dir
            = NewAdapter m n dir).
  { intros n Hn. rewrite !NewAdapter_lookup.
    destruct dir', dir; simpl; try reflexivity;
      rewrite lookup_insert_ne by congruence; reflexivity. }
  unfold NewAdapterOrDefault.
  destruct name as [|c name]; simpl.
  - rewrite !Hother by discriminate. reflexivity.
  - rewrite !Hother by discriminate. reflexivity.
Qed.

(** X4. Registering for one direction never changes what construction with
    fallback returns for the other direction. *)
Theorem fallback_construction_per_direction name' f m name :
  NewDownloadAdapter (RegisterNewAdapterFunc name' Upload f m) name
  = NewDownloadAdapter m name
  /\ NewUploadAdapter (RegisterNewAdapterFunc name' Download f m) name
     = NewUploadAdapter m name.
Proof. split; reflexivity. Qed.

(** X5. A name that is registered, with a factory that yields an adapter, gets
    that adapter from [NewAdapterOrDefault], not the basic one; when the
    factory yields nil, the basic factory is tried instead. *)
Theorem NewAdapterOrDefault_registered m name dir f :
  name <> "" ->
  adapterFuncs m dir !! name = Some f ->
  NewAdapterOrDefault m name dir
  = match f name dir with
    | Some a => Some a
    | None => NewAdapter m BasicAdapterName dir
    end.
Proof.
  intros Hne Hf. unfold NewAdapterOrDefault.
  destruct name as [|c name]; [congruence|]. simpl.
  rewrite (NewAdapter_lookup m (String c name) dir), Hf. reflexivity.
Qed.

Section InitMore.

Variables bd bu tus : NewAdapterFunc AdapterImpl.

Lemma InitAdapters_flags m :
  BasicTransfersOnly (InitAdapters bd bu tus m) = BasicTransfersOnly m
  /\ TusTransfersAllowed (InitAdapters bd bu tus m) = TusTransfersAllowed m.
Proof.
  destruct m as [mr ct bo ta d u]. unfold InitAdapters.
  cbn [MaxRetries ConcurrentTransfers].
  destruct (mr <? 1); cbn [set_MaxRetries ConcurrentTransfers];
    destruct (ct <? 1), ta; split; reflexivity.
Qed.

Lemma InitAdapters_download m :
  downloadAdapterFuncs (InitAdapters bd bu tus m)
  = <[BasicAdapterName := bd]> (downloadAdapterFuncs m).
Proof.
  destruct m as [mr ct bo ta d u]. unfold InitAdapters.
  cbn [MaxRetries ConcurrentTransfers].
  destruct (mr <? 1); cbn [set_MaxRetries ConcurrentTransfers];
    destruct (ct <? 1), ta; reflexivity.
Qed.

Lemma InitAdapters_upload m :
  uploadAdapterFuncs (InitAdapters bd bu tus m)
  = if TusTransfersAllowed m
    then <[TusAdapterName := tus]>
           (<[BasicAdapterName := bu]> (uploadAdapterFuncs m))
    else <[BasicAdapterName := bu]> (uploadAdapterFuncs m).
Proof.
  destruct m as [mr ct bo ta d u]. unfold InitAdapters.
  cbn [MaxRetries ConcurrentTransfers].
  destruct (mr <? 1); cbn [set_MaxRetries ConcurrentTransfers];
    destruct (ct <? 1), ta; reflexivity.
Qed.

(** X6. [InitAdapters] can be run again: the second run changes nothing. *)
Theorem InitAdapters_idempotent m :
  InitAdapters bd bu tus (InitAdapters bd bu tus m)
  = InitAdapters bd bu tus m.
Proof.
  apply Manifest_eq.
  - rewrite !InitAdapters_MaxRetries. unfold defaultMaxRetries.
    destruct (Z.ltb_spec (MaxRetries m) 1) as [Hlt | Hge]; [reflexivity|].
    destruct (Z.ltb_spec (MaxRetries m) 1); [lia | reflexivity].
  - rewrite !InitAdapters_ConcurrentTransfers.
    unfold defaultConcurrentTransfers.
    destruct (Z.ltb_spec (ConcurrentTransfers m) 1) as [Hlt | Hge];
      [reflexivity|].
    destruct (Z.ltb_spec (ConcurrentTransfers m) 1); [lia | reflexivity].
  - rewrite !(proj1 (InitAdapters_flags _)). reflexivity.
  - rewrite !(proj2 (InitAdapters_flags _)). reflexivity.
  - rewrite !InitAdapters_download. apply insert_insert_eq.
  - rewrite (InitAdapters_upload (InitAdapters bd bu tus m)).
    rewrite (proj2 (InitAdapters_flags m)), (InitAdapters_upload m).
    destruct (TusTransfersAllowed m).
    + rewrite (insert_insert_ne _ BasicAdapterName TusAdapterName)
        by discriminate.
      rewrite insert_insert_eq, insert_insert_eq. reflexivity.
    + apply insert_insert_eq.
Qed.

(** X7. [InitAdapters] keeps what was registered before it under other names
    than the built-in ones: such a name resolves as it did. That holds for the
    name of the resumable adapter too, for downloads and when
    [TusTransfersAllowed] is off. The two flags are left as they were. *)
Theorem InitAdapters_keeps_custom m name dir :
  name <> BasicAdapterName ->
  name <> TusAdapterName \/ dir = Download
  \/ TusTransfersAllowed m = false ->
  adapterFuncs (InitAdapters bd bu tus m) dir !! name
  = adapterFuncs m dir !! name
  /\ NewAdapter (InitAdapters bd bu tus m) name dir = NewAdapter m name dir
  /\ BasicTransfersOnly (InitAdapters bd bu tus m) = BasicTransfersOnly m
  /\ TusTransfersAllowed (InitAdapters bd bu tus m) = TusTransfersAllowed m.
Proof.
  intros Hb Ht.
  assert (Hlook : adapterFuncs (InitAdapters bd bu tus m) dir !! name
                  = adapterFuncs m dir !! name).
  { destruct dir; simpl.
    - rewrite InitAdapters_upload.
      destruct (TusTransfersAllowed m) eqn:Hta.
      + destruct Ht as [Ht | [Ht | Ht]]; [|discriminate ..].
        rewrite !lookup_insert_ne by congruence. reflexivity.
      + rewrite lookup_insert_ne by congruence. reflexivity.
    - rewrite InitAdapters_download.
      rewrite lookup_insert_ne by congruence. reflexivity.
    - reflexivity. }
  split; [exact Hlook|].
  split; [rewrite !NewAdapter_lookup, Hlook; reflexivity|].
  apply InitAdapters_flags.
Qed.

End InitMore.

(** ** Listing and registration *)

(** X8. Without the basic-only policy a listing has as many names as the table
    has entries. *)
Theorem listing_length rng m (t : gmap string (NewAdapterFunc AdapterImpl)) :
  BasicTransfersOnly m = false ->
  length (slice_elems (getAdapterNames rng m t)) = size t.
Proof.
  intros Hb. unfold getAdapterNames. rewrite Hb. simpl.
  rewrite append_names. simpl. rewrite length_map.
  rewrite (visit_perm rng t). apply length_map_to_list.
Qed.

(** X9. Without the basic-only policy, the listing of a direction after a
    registration for that direction holds the registered name and the names
    listed before, and nothing else. *)
Theorem listing_after_Register rng rng' m name dir f n :
  BasicTransfersOnly m = false ->
  dir = Upload \/ dir = Download ->
  n ∈ slice_elems (GetAdapterNames rng'
                     (RegisterNewAdapterFunc name dir f m) dir)
  <-> n = name \/ n ∈ slice_elems (GetAdapterNames rng m dir).
Proof.
  intros Hb Hdir.
  assert (Hkeys : forall r (m0 : Manifest AdapterImpl) d x,
            BasicTransfersOnly m0 = false -> d = Upload \/ d = Download ->
            x ∈ slice_elems (GetAdapterNames r m0 d)
            <-> is_Some (adapterFuncs m0 d !! x)).
  { intros r m0 d x Hb0 [-> | ->]; simpl;
      [destruct (getAdapterNames_keys r m0 (uploadAdapterFuncs m0) Hb0)
         as [l [Hl [_ Hin]]]
      |destruct (getAdapterNames_keys r m0 (downloadAdapterFuncs m0) Hb0)
         as [l [Hl [_ Hin]]]];
      unfold GetUploadAdapterNames, GetDownloadAdapterNames;
      rewrite Hl; simpl; apply Hin. }
  rewrite Hkeys;
    [|rewrite (proj1 (proj2 (proj2 (Register_tuning name dir f m)))); exact Hb
     |exact Hdir].
  rewrite (Hkeys rng m dir n Hb Hdir).
  destruct Hdir as [-> | ->]; simpl; rewrite lookup_insert_is_Some;
    (split;
     [intros [Heq | [_ Hin]]; [left; congruence | right; exact Hin]
     |intros [Heq | Hin];
      [left; congruence
      |destruct (decide (name = n)); [left | right]; auto]]).
Qed.

End RegistryMore.

(** * Further properties of the guard *)

Section LockingMore.

Context {AdapterImpl : Type}.
Implicit Types (m : Manifest AdapterImpl) (name : string) (dir : Direction).

Lemma trace_bind {A B : Type} (c : Locking.Traced A)
    (k : A -> Locking.Traced B) :
  Locking.trace (Locking.bind c k)
  = Locking.trace c ++ Locking.trace (k (Locking.result c)).
Proof.
  destruct c as [t a]. unfold Locking.bind, Locking.trace, Locking.result.
  simpl. destruct (k a); reflexivity.
Qed.

Lemma held_after_app (h : bool) (t1 t2 : list Locking.event) :
  Locking.held_after h (t1 ++ t2)
  = Locking.held_after (Locking.held_after h t1) t2.
Proof.
  revert h. induction t1 as [|e t1 IH]; intros h; [reflexivity|].
  destruct e; simpl; apply IH.
Qed.

Lemma well_locked_app (h : bool) (t1 t2 : list Locking.event) :
  Locking.well_locked h (t1 ++ t2)
  = Locking.well_locked h t1
    && Locking.well_locked (Locking.held_after h t1) t2.
Proof.
  revert h. induction t1 as [|e t1 IH]; intros h; [reflexivity|].
  destruct e; simpl; rewrite IH; try reflexivity;
    destruct h; reflexivity.
Qed.

Lemma acquisitions_app (t1 t2 : list Locking.event) :
  Locking.acquisitions (t1 ++ t2)
  = (Locking.acquisitions t1 + Locking.acquisitions t2)%nat.
Proof.
  induction t1 as [|e t1 IH]; [reflexivity|].
  destruct e; simpl; rewrite IH; reflexivity.
Qed.

Lemma invocations_app (t1 t2 : list Locking.event) :
  Locking.invocations (t1 ++ t2)
  = (Locking.invocations t1 + Locking.invocations t2)%nat.
Proof.
  induction t1 as [|e t1 IH]; [reflexivity|].
  destruct e; simpl; rewrite IH; reflexivity.
Qed.

(** One call of [NewAdapter]: well locked from a free guard, which it
    leaves free; one acquisition and at most one factory call. *)
Lemma NewAdapter_one_round m name dir :
  let t := Locking.trace (Locking.NewAdapter m name dir) in
  Locking.well_locked false t = true
  /\ Locking.held_after false t = false
  /\ Locking.acquisitions t = 1%nat
  /\ (Locking.invocations t <= 1)%nat.
Proof.
  intros t. subst t. rewrite Locking_NewAdapter_trace.
  destruct (adapterFuncs m dir !! name); simpl; repeat split; lia.
Qed.

(** X10. [NewAdapterOrDefault] never takes the guard while it holds it and
    holds nothing when it returns: it takes the guard once when the first
    lookup yields an adapter and twice when it falls back to the basic name,
    and it calls no more factories than it takes the guard. *)
Theorem NewAdapterOrDefault_locking m name dir :
  let t := Locking.trace (Locking.NewAdapterOrDefault m name dir) in
  let asked := if (String.length name =? 0)%nat then BasicAdapterName
               else name in
  Locking.well_locked false t = true
  /\ Locking.held_after false t = false
  /\ Locking.acquisitions t
     = match NewAdapter m asked dir with
       | Some _ => 1%nat
       | None => 2%nat
       end
  /\ (Locking.invocations t <= Locking.acquisitions t)%nat.
Proof.
  intros t asked. subst t. unfold Locking.NewAdapterOrDefault. fold asked.
  rewrite trace_bind, Locking_NewAdapter_result.
  destruct (NewAdapter_one_round m asked dir) as [Hw1 [Hh1 [Ha1 Hi1]]].
  destruct (NewAdapter_one_round m BasicAdapterName dir)
    as [Hw2 [Hh2 [Ha2 Hi2]]].
  rewrite well_locked_app, held_after_app, acquisitions_app,
    invocations_app, Hw1, Hh1, Ha1.
  destruct (NewAdapter m asked dir) as [a|].
  - simpl. repeat split. lia.
  - rewrite Hw2, Hh2, Ha2. repeat split. lia.
Qed.

(** X11. Registration and listing never call a factory. Each takes the guard
    once, gives it back, and leaves it free, except the listing under the
    basic-only policy, which does not take it at all. *)
Theorem registration_and_listing_call_no_factory
    (rng : range_order AdapterImpl) m name dir
    (f : NewAdapterFunc AdapterImpl)
    (t : gmap string (NewAdapterFunc AdapterImpl)) :
  let tr := Locking.trace (Locking.RegisterNewAdapterFunc name dir f m) in
  let tl := Locking.trace (Locking.getAdapterNames rng m t) in
  (Locking.invocations tr = 0%nat
   /\ tr = [Locking.Lock; Locking.Unlock])
  /\ (Locking.invocations tl = 0%nat
      /\ Locking.well_locked false tl = true
      /\ Locking.held_after false tl = false
      /\ Locking.acquisitions tl
         = if BasicTransfersOnly m then 0%nat else 1%nat).
Proof.
  intros tr tl. subst tr tl. split.
  - destruct dir; split; reflexivity.
  - unfold Locking.getAdapterNames.
    destruct (BasicTransfersOnly m); repeat split; reflexivity.
Qed.

End LockingMore.

(** * Further properties of the attribute installer *)

Section InstallerFacts.

Import Attribute.

(** X12. [shouldReset] lets a value be replaced exactly when it is empty or one
    of the upgradeable values: the empty value always passes, without
    upgradeable values nothing else does, and more upgradeable values never
    turn a pass into a refusal. *)
Theorem shouldReset_resettable (value : string)
    (upgradeables more : list string) :
  (shouldReset value upgradeables = true <->
   value = "" \/ value ∈ upgradeables)
  /\ shouldReset "" upgradeables = true
  /\ (shouldReset value [] = true <-> value = "")
  /\ (shouldReset value upgradeables = true ->
      shouldReset value (upgradeables ++ more) = true).
Proof.
  split; [apply shouldReset_spec|]. split; [reflexivity|]. split.
  - rewrite shouldReset_spec. split; [|auto].
    intros [Hnil | Hin]; [exact Hnil | inversion Hin].
  - rewrite !shouldReset_spec. intros [Hnil | Hin]; [left; exact Hnil|].
    right. apply elem_of_app. left. exact Hin.
Qed.

(** X13. [normalizeKey] puts the section and a dot before the relative key, and
    within one attribute different relative keys give different keys. *)
Theorem normalizeKey_injective (a : Attribute) (r1 r2 : string) :
  normalizeKey a r1 = AttrSection a +:+ "." +:+ r1
  /\ (normalizeKey a r1 = normalizeKey a r2 -> r1 = r2).
Proof.
  split; [reflexivity|]. unfold normalizeKey. simpl. intros Heq.
  apply (String.app_inj (AttrSection a)) in Heq.
  apply (String.app_inj ".") in Heq. exact Heq.
Qed.

Lemma normalizeKey_ne (a : Attribute) (r1 r2 : string) :
  r1 <> r2 -> normalizeKey a r1 <> normalizeKey a r2.
Proof.
  intros Hne Heq. apply Hne. unfold normalizeKey in Heq. simpl in Heq.
  apply (String.app_inj (AttrSection a)) in Heq.
  apply (String.app_inj ".") in Heq. exact Heq.
Qed.

Context {C E : Type} `{Configuration C E}.

(** The three ways a [set] can go. *)
Lemma set_cases (c : C) (key value : string) (upgradeables : list string)
    (opt : FilterOptions) :
  let currentValue := find_scoped opt c key in
  (Force opt = false /\ currentValue <> "" /\ currentValue <> value
   /\ (currentValue ∉ upgradeables)
   /\ set c key value upgradeables opt
      = (c, Some (AttributeConflict key value currentValue)))
  \/ (Force opt = false /\ currentValue = value
      /\ set c key value upgradeables opt = (c, None))
  \/ ((Force opt = true \/ currentValue = ""
       \/ currentValue ∈ upgradeables)
      /\ set c key value upgradeables opt
         = (fst (set_scoped opt c key value),
            WriteError <$> snd (set_scoped opt c key value))).
Proof.
  intros currentValue. unfold set. fold currentValue.
  destruct (Force opt) eqn:Hforce; simpl.
  - right. right. split; [left; reflexivity|].
    destruct (set_scoped opt c key value); reflexivity.
  - destruct (shouldReset currentValue upgradeables) eqn:Hreset.
    + right. right. apply shouldReset_spec in Hreset.
      split; [right; exact Hreset|].
      destruct (set_scoped opt c key value); reflexivity.
    + apply shouldReset_false in Hreset. destruct Hreset as [Hne Hnot].
      destruct (String.eqb_spec currentValue value) as [Heq | Hdiff]; simpl.
      * right. left. auto.
      * left. auto.
Qed.

(** A conflict error tells what [set] found. *)
Lemma set_conflict_inv (c : C) (key value : string)
    (upgradeables : list string) (opt : FilterOptions) k v cur :
  snd (set c key value upgradeables opt) = Some (AttributeConflict k v cur) ->
  Force opt = false /\ k = key /\ v = value
  /\ cur = find_scoped opt c key
  /\ cur <> "" /\ cur <> value /\ cur ∉ upgradeables.
Proof.
  destruct (set_cases c key value upgradeables opt)
    as [[Hf [Hne [Hdiff [Hnot ->]]]] | [[Hf [Heq ->]] | [_ ->]]];
    simpl; intros Hc.
  - injection Hc as <- <- <-. auto 10.
  - discriminate.
  - destruct (snd (set_scoped opt c key value)); discriminate.
Qed.

(** A [set] without force that did not fail met no conflict. *)
Lemma set_success_no_conflict (c : C) (key value : string)
    (upgradeables : list string) (opt : FilterOptions) :
  snd (set c key value upgradeables opt) = None ->
  let cur := find_scoped opt c key in
  Force opt = true \/ cur = "" \/ cur = value \/ cur ∈ upgradeables.
Proof.
  destruct (set_cases c key value upgradeables opt)
    as [[Hf [Hne [Hdiff [Hnot ->]]]] | [[Hf [Heq ->]] | [Hw ->]]];
    simpl; intros Hc.
  - discriminate.
  - auto.
  - destruct Hw as [Hw | [Hw | Hw]]; auto.
Qed.

Context {Laws : ConfigurationLaws C E}.

Lemma set_frame (c : C) (key value : string) (upgradeables : list string)
    (opt : FilterOptions) (other : string) :
  other <> key ->
  find_scoped opt (fst (set c key value upgradeables opt)) other
  = find_scoped opt c other.
Proof.
  intros Hne.
  destruct (set_cases c key value upgradeables opt)
    as [[_ [_ [_ [_ ->]]]] | [[_ [_ ->]] | [_ ->]]]; simpl;
    try reflexivity.
  apply find_set_other. exact Hne.
Qed.

Lemma set_success_reads (c : C) (key value : string)
    (upgradeables : list string) (opt : FilterOptions) :
  snd (set c key value upgradeables opt) = None ->
  find_scoped opt (fst (set c key value upgradeables opt)) key = value.
Proof.
  destruct (set_cases c key value upgradeables opt)
    as [[_ [_ [_ [_ ->]]]] | [[_ [Heq ->]] | [_ ->]]]; simpl.
  - discriminate.
  - intros _. exact Heq.
  - intros Hw. apply find_set_same.
    destruct (snd (set_scoped opt c key value)); [discriminate | reflexivity].
Qed.

(** X14. On a configuration that reads back what was written, a [set] that
    succeeded can be repeated: whatever the upgradeable values of the second
    call, it does not end in the conflict error. *)
Theorem set_again_never_conflicts (c : C) (key value : string)
    (upgradeables upgradeables' : list string) (opt : FilterOptions)
    k v cur :
  snd (set c key value upgradeables opt) = None ->
  snd (set (fst (set c key value upgradeables opt)) key value upgradeables'
         opt)
  <> Some (AttributeConflict k v cur).
Proof.
  intros Hok Hconflict.
  apply set_conflict_inv in Hconflict.
  destruct Hconflict as [_ [_ [_ [Hcur [_ [Hdiff _]]]]]].
  rewrite (set_success_reads _ _ _ _ _ Hok) in Hcur. congruence.
Qed.

(** ** The loop of [Install] *)

(** A key that the loop does not visit reads the same after it. *)
Lemma Install_loop_frame (a : Attribute) (opt : FilterOptions)
    (entries : list (string * string)) (c : C) (other : string) :
  (forall k v, (k, v) ∈ entries -> other <> normalizeKey a k) ->
  find_scoped opt (fst (Install_loop a opt entries c)) other
  = find_scoped opt c other.
Proof.
  revert c. induction entries as [|[k0 v0] entries IH]; intros c Hother;
    simpl; [reflexivity|].
  assert (Hk0 : other <> normalizeKey a k0)
    by (apply (Hother k0 v0); left).
  pose proof (set_frame c (normalizeKey a k0) v0 (upgradeables_of a k0) opt
                other Hk0) as Hframe.
  destruct (set c (normalizeKey a k0) v0 (upgradeables_of a k0) opt)
    as [c1 [err|]] eqn:Hset; simpl in *.
  - exact Hframe.
  - rewrite IH; [exact Hframe|].
    intros k v Hin. apply (Hother k v). right. exact Hin.
Qed.

(** The conflict the loop reports was there before the loop began. *)
Lemma Install_loop_conflict (a : Attribute) (opt : FilterOptions)
    (entries : list (string * string)) (c : C) key value cur :
  NoDup (map fst entries) ->
  snd (Install_loop a opt entries c)
  = Some (AttributeConflict key value cur) ->
  Force opt = false
  /\ exists k, (k, value) ∈ entries /\ key = normalizeKey a k
               /\ cur = find_scoped opt c key
               /\ conflicts a opt c k value.
Proof.
  revert c. induction entries as [|[k0 v0] entries IH]; intros c Hnd;
    simpl; [discriminate|].
  apply NoDup_cons in Hnd. destruct Hnd as [Hfresh Hnd].
  pose proof (fun other => set_frame c (normalizeKey a k0) v0
                             (upgradeables_of a k0) opt other) as Hframe.
  destruct (set c (normalizeKey a k0) v0 (upgradeables_of a k0) opt)
    as [c1 [err|]] eqn:Hset; simpl in *.
  - intros Herr.
    assert (Hs : snd (set c (normalizeKey a k0) v0 (upgradeables_of a k0)
                        opt) = Some (AttributeConflict key value cur))
      by (rewrite Hset; exact Herr).
    apply set_conflict_inv in Hs.
    destruct Hs as [Hf [-> [-> [-> [Hne [Hdiff Hnot]]]]]].
    split; [exact Hf|]. exists k0. split; [left|].
    split; [reflexivity|]. split; [reflexivity|].
    unfold conflicts. auto.
  - intros Herr. destruct (IH c1 Hnd Herr) as [Hf [k [Hin [-> [-> Hc]]]]].
    assert (Hk : normalizeKey a k <> normalizeKey a k0).
    { apply normalizeKey_ne. intros ->. apply Hfresh.
      apply list_elem_of_fmap. exists (k0, value). auto. }
    split; [exact Hf|]. exists k. split; [right; exact Hin|].
    split; [reflexivity|]. split; [apply Hframe; exact Hk|].
    unfold conflicts in *. rewrite <- (Hframe _ Hk). exact Hc.
Qed.

(** When the loop succeeds, every entry reads back and, without force, none
    was in conflict before the loop began. *)
Lemma Install_loop_success (a : Attribute) (opt : FilterOptions)
    (entries : list (string * string)) (c : C) :
  NoDup (map fst entries) ->
  snd (Install_loop a opt entries c) = None ->
  forall k v, (k, v) ∈ entries ->
    find_scoped opt (fst (Install_loop a opt entries c)) (normalizeKey a k)
    = v
    /\ (Force opt = false -> ~ conflicts a opt c k v).
Proof.
  revert c. induction entries as [|[k0 v0] entries IH]; intros c Hnd Hok;
    [intros k v Hin; inversion Hin|].
  apply NoDup_cons in Hnd. destruct Hnd as [Hfresh Hnd].
  simpl in Hok |- *.
  pose proof (fun other => set_frame c (normalizeKey a k0) v0
                             (upgradeables_of a k0) opt other) as Hframe.
  pose proof (set_success_reads c (normalizeKey a k0) v0
                (upgradeables_of a k0) opt) as Hread.
  pose proof (set_success_no_conflict c (normalizeKey a k0) v0
                (upgradeables_of a k0) opt) as Hfree.
  destruct (set c (normalizeKey a k0) v0 (upgradeables_of a k0) opt)
    as [c1 [err|]] eqn:Hset; simpl in *; [discriminate|].
  intros k v Hin. apply elem_of_cons in Hin.
  destruct Hin as [Heq | Hin].
  - injection Heq as -> ->. split.
    + rewrite Install_loop_frame; [apply Hread; reflexivity|].
      intros k v Hin. apply normalizeKey_ne. intros <-. apply Hfresh.
      apply list_elem_of_fmap. exists (k0, v). auto.
    + intros Hf [Hne [Hdiff Hnot]].
      destruct (Hfree eq_refl) as [Hforce | [He | [Hv | Hu]]];
        [congruence | contradiction ..].
  - destruct (IH c1 Hnd Hok k v Hin) as [Hback Hnc].
    split; [exact Hback|].
    assert (Hk : normalizeKey a k <> normalizeKey a k0).
    { apply normalizeKey_ne. intros ->. apply Hfresh.
      apply list_elem_of_fmap. exists (k0, v). auto. }
    intros Hf Hc. apply (Hnc Hf). unfold conflicts in *.
    rewrite (Hframe _ Hk). exact Hc.
Qed.

(** ** [Install] *)

Lemma visit_properties_NoDup (rng : properties_order)
    (t : gmap string string) :
  NoDup (map fst (visit_properties rng t)).
Proof.
  assert (Hkeys : map fst (visit_properties rng t) ≡ₚ (map_to_list t).*1)
    by (apply fmap_Permutation; apply visit_properties_perm).
  rewrite Hkeys. apply NoDup_fst_map_to_list.
Qed.

Lemma visit_properties_elem (rng : properties_order)
    (t : gmap string string) (k v : string) :
  (k, v) ∈ visit_properties rng t <-> t !! k = Some v.
Proof.
  rewrite (visit_properties_perm rng t). apply elem_of_map_to_list.
Qed.



(** X15. The conflict error that [Install] returns names a property whose key
    held a conflicting value before [Install] began, whatever the order in
    which the properties were visited; it is returned without force only. *)
Theorem Install_conflict_was_there (rng : properties_order) (a : Attribute)
    (c : C) (opt : FilterOptions) key value cur :
  snd (Install rng a c opt) = Some (AttributeConflict key value cur) ->
  Force opt = false
  /\ exists k, Properties a !! k = Some value
               /\ key = normalizeKey a k
               /\ cur = find_scoped opt c key
               /\ conflicts a opt c k value.
Proof.
  intros Herr. unfold Install in Herr.
  pose proof (visit_properties_NoDup rng (Properties a)) as Hnd.
  destruct (Install_loop_conflict a opt _ c key value cur Hnd Herr)
    as [Hforce [k [Hin [Hkey [Hcur Hconf]]]]].
  split; [exact Hforce|]. exists k. split.
  - apply (visit_properties_elem rng). exact Hin.
  - split; [exact Hkey|]. split; [exact Hcur | exact Hconf].
Qed.

(** X16. When [Install] succeeds, every property of the attribute reads back
    under its normalized key, whatever the order of the visit; and without
    force none of them was in conflict before [Install] began. *)
Theorem Install_success (rng : properties_order) (a : Attribute) (c : C)
    (opt : FilterOptions) (k v : string) :
  snd (Install rng a c opt) = None ->
  Properties a !! k = Some v ->
  find_scoped opt (fst (Install rng a c opt)) (normalizeKey a k) = v
  /\ (Force opt = false -> ~ conflicts a opt c k v).
Proof.
  intros Hok Hk. unfold Install in *.
  pose proof (visit_properties_NoDup rng (Properties a)) as Hnd.
  assert (Hin : (k, v) ∈ visit_properties rng (Properties a))
    by (apply (visit_properties_elem rng); exact Hk).
  destruct (Install_loop_success a opt _ c Hnd Hok k v Hin)
    as [Hback Hfree].
  split; [exact Hback | exact Hfree].
Qed.

End InstallerFacts.

(** X17. With force, [Install] never returns the conflict error: the only error
    it can return is that of a configuration write. *)
Theorem Install_forced_never_conflicts {C E : Type}
    `{Attribute.Configuration C E} (rng : Attribute.properties_order)
    (a : Attribute.Attribute) (c : C) (opt : Attribute.FilterOptions)
    k v cur :
  Attribute.Force opt = true ->
  snd (Attribute.Install rng a c opt)
  <> Some (Attribute.AttributeConflict k v cur).
Proof.
  intros Hforce. unfold Attribute.Install.
  generalize (Attribute.visit_properties rng (Attribute.Properties a)).
  intros entries. revert c.
  induction entries as [|[k0 v0] entries IH]; intros c; simpl;
    [discriminate|].
  destruct (Attribute.set c (Attribute.normalizeKey a k0) v0
              (Attribute.upgradeables_of a k0) opt)
    as [c1 [err|]] eqn:Hset.
  - simpl. intros Herr.
    assert (Hs : snd (Attribute.set c (Attribute.normalizeKey a k0) v0
                        (Attribute.upgradeables_of a k0) opt)
                 = Some (Attribute.AttributeConflict k v cur))
      by (rewrite Hset; exact Herr).
    apply set_conflict_inv in Hs. destruct Hs as [Hf _]. congruence.
  - apply IH.
Qed.

(** ** Switching between the two attributes, and reinstalling *)

Section InstallerScenarios.

Import Attribute.

Context {C E : Type} `{Configuration C E} {Laws : ConfigurationLaws C E}.


Variable SelfPath : string.




Context `{SectionRemoval C E} {RLaws : RemovalLaws C E}.


End InstallerScenarios.

(** ** The configuration files obey the laws *)

Lemma files_laws_same (opt : Attribute.FilterOptions) (c : Attribute.files)
    (key value : string) :
  snd (Attribute.set_scoped opt c key value) = None ->
  Attribute.find_scoped opt (fst (Attribute.set_scoped opt c key value)) key
  = value.
Proof.
  unfold Attribute.set_scoped, Attribute.find_scoped. simpl.
  unfold Attribute.files_set, Attribute.files_find.
  destruct (Attribute.writable c);
    destruct (Attribute.Local opt), (Attribute.Worktree opt),
      (Attribute.System opt); simpl; intros Hw;
    try discriminate; rewrite lookup_insert_eq; reflexivity.
Qed.

Lemma files_laws_other (opt : Attribute.FilterOptions) (c : Attribute.files)
    (key value other : string) :
  other <> key ->
  Attribute.find_scoped opt (fst (Attribute.set_scoped opt c key value)) other
  = Attribute.find_scoped opt c other.
Proof.
  intros Hne. unfold Attribute.set_scoped, Attribute.find_scoped. simpl.
  unfold Attribute.files_set, Attribute.files_find.
  destruct (Attribute.writable c);
    destruct (Attribute.Local opt), (Attribute.Worktree opt),
      (Attribute.System opt); simpl;
    try reflexivity; rewrite lookup_insert_ne by congruence; reflexivity.
Qed.

#[global] Instance files_laws
  : Attribute.ConfigurationLaws Attribute.files string :=
  {| Attribute.find_set_same := files_laws_same;
     Attribute.find_set_other := files_laws_other |}.

Lemma prefix_empty (s : string) : String.prefix "" s = true.
Proof. destruct s; reflexivity. Qed.

Lemma prefix_append (p q rest : string) :
  String.prefix (p +:+ q) (p +:+ q +:+ rest) = true.
Proof.
  induction p as [|ch p IH].
  - change ("" +:+ q) with q. change ("" +:+ q +:+ rest) with (q +:+ rest).
    induction q as [|ch q IHq].
    + apply prefix_empty.
    + change (String ch q +:+ rest) with (String ch (q +:+ rest)). simpl.
      destruct (Ascii.ascii_dec ch ch); [exact IHq | congruence].
  - change (String ch p +:+ q) with (String ch (p +:+ q)).
    change (String ch p +:+ q +:+ rest)
      with (String ch (p +:+ q +:+ rest)).
    simpl. destruct (Ascii.ascii_dec ch ch); [exact IH | congruence].
Qed.

Lemma without_section_lookup (section relative : string)
    (t : gmap string string) :
  Attribute.without_section section t
    !! Attribute.Join [section; relative] "." = None.
Proof.
  unfold Attribute.without_section. apply map_lookup_filter_None.
  right. intros x _. simpl. unfold Attribute.in_section.
  rewrite prefix_append. discriminate.
Qed.

Lemma files_laws_unset (opt : Attribute.FilterOptions) (c : Attribute.files)
    (section relative : string) :
  snd (Attribute.unset_scoped opt c section) = None ->
  Attribute.find_scoped opt (fst (Attribute.unset_scoped opt c section))
    (Attribute.Join [section; relative] ".") = "".
Proof.
  unfold Attribute.unset_scoped, Attribute.find_scoped.
  cbn [Attribute.UnsetLocalSection Attribute.UnsetWorktreeSection
       Attribute.UnsetSystemSection Attribute.UnsetGlobalSection
       Attribute.FindLocal Attribute.FindWorktree Attribute.FindSystem
       Attribute.FindGlobal Attribute.files_removal
       Attribute.files_configuration].
  unfold Attribute.files_unset, Attribute.files_find.
  destruct (Attribute.writable c);
    destruct (Attribute.Local opt), (Attribute.Worktree opt),
      (Attribute.System opt);
    cbn [Attribute.file_of];
    try (intros Hw; discriminate);
    (destruct (bool_decide _); [intros Hw; discriminate|]);
    intros _; cbn [fst Attribute.file_of Attribute.localFile
                   Attribute.worktreeFile Attribute.systemFile
                   Attribute.globalFile];
    rewrite without_section_lookup; reflexivity.
Qed.

#[global] Instance files_removal_laws
  : Attribute.RemovalLaws Attribute.files string :=
  {| Attribute.find_unset := files_laws_unset |}.

(** X20. A factory registered under the basic name before [InitAdapters] is
    discarded by it: [InitAdapters] ends in the same Manifest as if that
    registration had not been made. *)
Theorem InitAdapters_discards_earlier_basic {AdapterImpl : Type}
    (bd bu tus f : NewAdapterFunc AdapterImpl) (dir : Direction)
    (m : Manifest AdapterImpl) :
  InitAdapters bd bu tus (RegisterNewAdapterFunc BasicAdapterName dir f m)
  = InitAdapters bd bu tus m.
Proof.
  pose proof (Register_tuning BasicAdapterName dir f m)
    as [Hr [Hc [Hb Ht]]].
  apply Manifest_eq.
  - rewrite !InitAdapters_MaxRetries, Hr. reflexivity.
  - rewrite !InitAdapters_ConcurrentTransfers, Hc. reflexivity.
  - rewrite !(proj1 (InitAdapters_flags _ _ _ _)). exact Hb.
  - rewrite !(proj2 (InitAdapters_flags _ _ _ _)). exact Ht.
  - rewrite !InitAdapters_download.
    destruct dir; simpl; try reflexivity. apply insert_insert_eq.
  - rewrite !InitAdapters_upload, Ht.
    destruct dir; simpl; try reflexivity.
    rewrite insert_insert_eq. reflexivity.
Qed.

(** ** The further properties at concrete inputs *)

Lemma Register_commute_witness :
  RegisterNewAdapterFunc "a" Upload (Samples.tagged "a")
    (RegisterNewAdapterFunc "a" Download (Samples.tagged "b") NewManifest)
  = RegisterNewAdapterFunc "a" Download (Samples.tagged "b")
      (RegisterNewAdapterFunc "a" Upload (Samples.tagged "a") NewManifest).
Proof.
  apply (Register_commute "a" "a" Upload Download). right. discriminate.
Defined.

Lemma NewAdapterOrDefault_registered_witness :
  NewAdapterOrDefault (Samples.init Samples.upload_only) "X" Upload
  = Some "custom-X".
Proof.
  apply (NewAdapterOrDefault_registered (Samples.init Samples.upload_only)
           "X" Upload (Samples.tagged "custom-X")).
  - discriminate.
  - reflexivity.
Defined.

Lemma InitAdapters_keeps_custom_witness :
  NewAdapter (Samples.init Samples.upload_only) "X" Upload
  = NewAdapter Samples.upload_only "X" Upload.
Proof.
  apply (InitAdapters_keeps_custom (Samples.tagged "basic-download")
           (Samples.tagged "basic-upload") (Samples.tagged "tus-upload")
           Samples.upload_only "X" Upload).
  - discriminate.
  - left. discriminate.
Defined.

Lemma listing_length_witness :
  length (slice_elems (getAdapterNames reverse_order Samples.upload_only
                         (uploadAdapterFuncs Samples.upload_only)))
  = size (uploadAdapterFuncs Samples.upload_only).
Proof.
  apply (listing_length reverse_order Samples.upload_only). reflexivity.
Defined.

Lemma listing_after_Register_witness :
  "Y" ∈ slice_elems (GetAdapterNames reverse_order
                       (RegisterNewAdapterFunc "Y" Upload
                          (Samples.tagged "custom-Y") Samples.upload_only)
                       Upload).
Proof.
  apply (listing_after_Register canonical_order reverse_order
           Samples.upload_only "Y" Upload (Samples.tagged "custom-Y") "Y").
  - reflexivity.
  - left. reflexivity.
  - left. reflexivity.
Defined.

Lemma set_again_never_conflicts_witness :
  snd (Attribute.set
         (fst (Attribute.set InstallerSamples.fresh "filter.lfs.clean"
                 "git-lfs clean -- %f" [] Attribute.default_options))
         "filter.lfs.clean" "git-lfs clean -- %f" []
         Attribute.default_options)
  <> Some (Attribute.AttributeConflict "filter.lfs.clean"
             "git-lfs clean -- %f" "").
Proof.
  apply (set_again_never_conflicts InstallerSamples.fresh "filter.lfs.clean"
           "git-lfs clean -- %f" [] [] Attribute.default_options).
  vm_compute. reflexivity.
Defined.

Lemma Install_conflict_was_there_witness :
  Attribute.Force Attribute.default_options = false
  /\ exists k,
       Attribute.Properties
         (Attribute.filterAttribute InstallerSamples.selfPath) !! k
       = Some "git-lfs smudge -- %f"
       /\ "filter.lfs.smudge"
          = Attribute.normalizeKey
              (Attribute.filterAttribute InstallerSamples.selfPath) k
       /\ "cat"
          = Attribute.find_scoped Attribute.default_options
              InstallerSamples.foreign_smudge "filter.lfs.smudge"
       /\ Attribute.conflicts
            (Attribute.filterAttribute InstallerSamples.selfPath)
            Attribute.default_options InstallerSamples.foreign_smudge k
            "git-lfs smudge -- %f".
Proof.
  apply (Install_conflict_was_there Attribute.listed_backwards
           (Attribute.filterAttribute InstallerSamples.selfPath)
           InstallerSamples.foreign_smudge Attribute.default_options).
  vm_compute. reflexivity.
Defined.

Lemma Install_success_witness :
  Attribute.find_scoped Attribute.default_options
    (fst (Attribute.Install Attribute.listed_backwards
            (Attribute.filterAttribute InstallerSamples.selfPath)
            InstallerSamples.fresh Attribute.default_options))
    (Attribute.normalizeKey
       (Attribute.filterAttribute InstallerSamples.selfPath) "process")
  = "git-lfs filter-process".
Proof.
  apply (Install_success Attribute.listed_backwards
           (Attribute.filterAttribute InstallerSamples.selfPath)
           InstallerSamples.fresh Attribute.default_options "process"
           "git-lfs filter-process").
  - vm_compute. reflexivity.
  - reflexivity.
Defined.

Lemma Install_forced_never_conflicts_witness :
  snd (Attribute.Install Attribute.listed_order
         (Attribute.filterAttribute InstallerSamples.selfPath)
         InstallerSamples.foreign_smudge Attribute.forced_options)
  <> Some (Attribute.AttributeConflict "filter.lfs.smudge"
             "git-lfs smudge -- %f" "cat").
Proof.
  apply (Install_forced_never_conflicts Attribute.listed_order
           (Attribute.filterAttribute InstallerSamples.selfPath)
           InstallerSamples.foreign_smudge Attribute.forced_options).
  reflexivity.
Defined.



(** X21. When [Install] fails, what it has written by then depends on the order
    in which the properties were visited: on files where only the smudge filter
    is in conflict, the same conflict is returned for two orders of the visit,
    after the clean filter was written in one and not in the other. *)
Theorem Install_failure_depends_on_order :
  exists (c : Attribute.files) (rng rng' : Attribute.properties_order),
    let a := Attribute.filterAttribute InstallerSamples.selfPath in
    let r := Attribute.Install rng a c Attribute.default_options in
    let r' := Attribute.Install rng' a c Attribute.default_options in
    snd r = snd r' /\ snd r <> None
    /\ Attribute.find_scoped Attribute.default_options (fst r)
         (Attribute.normalizeKey a "clean") = ""
    /\ Attribute.find_scoped Attribute.default_options (fst r')
         (Attribute.normalizeKey a "clean") = "git-lfs clean -- %f".
Proof.
  exists InstallerSamples.foreign_smudge, Attribute.listed_order,
    Attribute.listed_backwards.
  repeat split; vm_compute; congruence.
Qed.

(** ** Registrations after the initialization *)

(** X22. Whatever is registered after [InitAdapters] under other names than the
    basic one, [NewAdapterOrDefault] goes on returning a non-nil adapter for
    every name and both directions, provided the built-in basic factories yield
    one. *)
Theorem registrations_keep_fallback {AdapterImpl : Type}
    (bd bu tus : NewAdapterFunc AdapterImpl)
    (regs : list (string * Direction * NewAdapterFunc AdapterImpl))
    (m : Manifest AdapterImpl) (name : string) (dir : Direction) :
  bd BasicAdapterName Download <> None ->
  bu BasicAdapterName Upload <> None ->
  Forall (fun r => fst (fst r) <> BasicAdapterName) regs ->
  dir = Upload \/ dir = Download ->
  NewAdapterOrDefault (register_all regs (InitAdapters bd bu tus m)) name dir
  <> None.
Proof.
  intros Hd Hu Hregs Hdir.
  assert (Hf : basicFactory bd bu dir BasicAdapterName dir <> None)
    by (destruct Hdir as [-> | ->]; assumption).
  apply (NewAdapterOrDefault_basic _ name dir (basicFactory bd bu dir));
    [|exact Hf].
  pose proof (InitAdapters_basic bd bu tus m dir Hdir) as Hb.
  revert Hb. generalize (InitAdapters bd bu tus m). clear m.
  induction Hregs as [|[[n d] g] regs Hn Hregs IH]; intros m Hb;
    [exact Hb|].
  simpl. apply IH. simpl in Hn.
  destruct d, dir; simpl in *; try exact Hb;
    rewrite lookup_insert_ne by congruence; exact Hb.
Qed.

Lemma registrations_keep_fallback_witness :
  NewAdapterOrDefault
    (register_all [("X", Upload, Samples.nil_factory);
                   ("Y", Download, Samples.tagged "custom-Y")]
       (Samples.init NewManifest)) "X" Upload
  <> None.
Proof.
  apply (registrations_keep_fallback (Samples.tagged "basic-download")
           (Samples.tagged "basic-upload") (Samples.tagged "tus-upload")
           [("X", Upload, Samples.nil_factory);
            ("Y", Download, Samples.tagged "custom-Y")]
           NewManifest "X" Upload).
  - discriminate.
  - discriminate.
  - repeat constructor; discriminate.
  - left. reflexivity.
Defined.

(** ** Installing again, and when an install goes through *)

Section InstallerCompletes.

Import Attribute.

Context {C E : Type} `{Configuration C E} {Laws : ConfigurationLaws C E}.


(** [usable] singles out the configurations whose writes go through. *)
Variable usable : C -> Prop.

Hypothesis usable_write : forall opt (c : C) key value,
  usable c ->
  snd (set_scoped opt c key value) = None
  /\ usable (fst (set_scoped opt c key value)).




End InstallerCompletes.



